(** * Alert and notification system: a shallow embedding of
      [Hazard_Detection/alert_system.py]

    The development follows the Python module top-down: the two enums, the
    [AlertRecipient] and [Alert] dataclasses, and the [AlertManager] with its
    methods.  [Alert] objects are shared by reference between the active-alert
    dict, the history list and the delivery queue, so they live in an explicit
    object store and the manager's containers hold locations.  Methods run in
    a state-and-exception monad in which a raised exception keeps the
    mutations made before it, as in Python.

    Idealisations: a naive [datetime] is a count of microseconds on a linear
    time line and a [timedelta] a difference of two such counts; Python floats
    are exact rationals; dict values of [metadata] are restricted to None,
    booleans, integers and strings; threads are serialised, every method call
    and every timer callback running to completion. *)

From Stdlib Require Import ZArith QArith Ascii String.
From stdpp Require Import gmap strings list fin_maps.

Local Open Scope string_scope.
Local Open Scope nat_scope.
Local Open Scope list_scope.
Local Open Scope stdpp_scope.

(** ** Python values and exceptions *)

Abbreviation datetime := Z (only parsing).
Abbreviation timedelta := Z (only parsing).
Abbreviation loc := nat (only parsing).

Definition microseconds_per_minute : Z := 60000000.

(** [timedelta(minutes=m)] *)
Definition timedelta_minutes (m : Z) : timedelta := (m * microseconds_per_minute)%Z.

(** Values stored in the untyped [metadata] dict. *)
Inductive pyval :=
| PNone
| PBool (b : bool)
| PInt (z : Z)
| PStr (s : string).

(** Exceptions.  [InvalidReference] has no Python counterpart: it marks a
    location outside the object store, which no sequence of operations
    produces (see [run_wf]). *)
Inductive exn :=
| KeyError (k : string)
| TypeError
| ValueError
| ZeroDivisionError
| SenderFailure (msg : string)
| InvalidReference.

Inductive result (A : Type) :=
| Ok (a : A)
| Raise (e : exn).
Arguments Ok {A} a.
Arguments Raise {A} e.

#[global] Instance result_ret : MRet result := λ A a, Ok a.
#[global] Instance result_bind : MBind result := λ A B f r,
  match r with
  | Ok a => f a
  | Raise e => Raise e
  end.

(** [d[k]] on a dict with string keys *)
Definition getitem {V} (d : gmap string V) (k : string) : result V :=
  match d !! k with
  | Some v => Ok v
  | None => Raise (KeyError k)
  end.

(** Truth value of a dict: non-empty *)
Definition dict_truthy {V} (d : gmap string V) : bool := negb (size d =? 0)%nat.

(** The numeric reading of a value, when it has one ([True] is 1). *)
Definition py_num (v : pyval) : option Z :=
  match v with
  | PInt z => Some z
  | PBool b => Some (Z.b2z b)
  | PNone | PStr _ => None
  end.

(** [v + 1] for an integer literal on the right *)
Definition py_add_int (v : pyval) (k : Z) : result pyval :=
  match py_num v with
  | Some z => Ok (PInt (z + k))
  | None => Raise TypeError
  end.

(** ** Enums *)

Inductive AlertSeverity := LOW | MEDIUM | HIGH | CRITICAL.

#[global] Instance AlertSeverity_eq_dec : EqDecision AlertSeverity.
Proof. solve_decision. Defined.

(** [severity.value] *)
Definition severity_value (s : AlertSeverity) : Z :=
  match s with
  | LOW => 1
  | MEDIUM => 2
  | HIGH => 3
  | CRITICAL => 4
  end.

(** [AlertSeverity(v)]: lookup by value, [ValueError] outside 1..4 *)
Definition AlertSeverity_of_value (v : Z) : result AlertSeverity :=
  if (v =? 1)%Z then Ok LOW
  else if (v =? 2)%Z then Ok MEDIUM
  else if (v =? 3)%Z then Ok HIGH
  else if (v =? 4)%Z then Ok CRITICAL
  else Raise ValueError.

(** Iteration order of [for severity in AlertSeverity] *)
Definition AlertSeverity_members : list AlertSeverity := [LOW; MEDIUM; HIGH; CRITICAL].

Inductive AlertChannel :=
| EMAIL | SMS | PUSH | WEBHOOK | SLACK | DISCORD | TELEGRAM | PAGERDUTY | CONSOLE.

#[global] Instance AlertChannel_eq_dec : EqDecision AlertChannel.
Proof. solve_decision. Defined.

(** ** [datetime.strftime('%H:%M')] *)

Definition digit (d : Z) : ascii := ascii_of_N (48 + Z.to_N d).

Definition two_digits (n : Z) : string :=
  String (digit (n / 10)) (String (digit (n mod 10)) EmptyString).

Definition hour_of (t : datetime) : Z := ((t / (60 * microseconds_per_minute)) mod 24)%Z.
Definition minute_of (t : datetime) : Z := ((t / microseconds_per_minute) mod 60)%Z.

Definition strftime_HM (t : datetime) : string :=
  two_digits (hour_of t) +:+ ":" +:+ two_digits (minute_of t).

(** ** Dataclasses *)

Record AlertRecipient := mkRecipient {
  name : string;
  channels : list AlertChannel;
  email : option string;
  phone : option string;
  webhook_url : option string;
  slack_channel : option string;
  telegram_chat_id : option string;
  severity_threshold : AlertSeverity;
  active_hours : option (gmap string string)
}.

(** [AlertRecipient.should_receive_alert].  The chained comparison
    [start <= current_hour <= end] looks [end] up only when the first
    comparison holds. *)
Definition should_receive_alert (self : AlertRecipient) (severity : AlertSeverity)
    (current_time : datetime) : result bool :=
  if (severity_value severity <? severity_value (severity_threshold self))%Z then Ok false
  else
    match active_hours self with
    | Some hours =>
        if dict_truthy hours then
          let current_hour := strftime_HM current_time in
          in_window ←
            (start ← getitem hours "start";
             if String.leb start current_hour
             then end_ ← getitem hours "end"; Ok (String.leb current_hour end_)
             else Ok false);
          if negb in_window then Ok false else Ok true
        else Ok true
    | None => Ok true
    end.

Record Alert := mkAlert {
  alert_id : string;
  hazard_id : string;
  severity : AlertSeverity;
  title : string;
  message : string;
  timestamp : datetime;
  location : option (gmap string pyval);
  image_path : option string;
  metadata : gmap string pyval;
  acknowledged : bool;
  acknowledged_by : option string;
  acknowledged_at : option datetime
}.

(** Attribute assignment on an [Alert] *)
Definition set_severity (v : AlertSeverity) (a : Alert) : Alert :=
  mkAlert (alert_id a) (hazard_id a) v (title a) (message a) (timestamp a)
    (location a) (image_path a) (metadata a)
    (acknowledged a) (acknowledged_by a) (acknowledged_at a).

Definition set_metadata (v : gmap string pyval) (a : Alert) : Alert :=
  mkAlert (alert_id a) (hazard_id a) (severity a) (title a) (message a) (timestamp a)
    (location a) (image_path a) v
    (acknowledged a) (acknowledged_by a) (acknowledged_at a).

Definition set_acknowledged (v : bool) (a : Alert) : Alert :=
  mkAlert (alert_id a) (hazard_id a) (severity a) (title a) (message a) (timestamp a)
    (location a) (image_path a) (metadata a)
    v (acknowledged_by a) (acknowledged_at a).

Definition set_acknowledged_by (v : option string) (a : Alert) : Alert :=
  mkAlert (alert_id a) (hazard_id a) (severity a) (title a) (message a) (timestamp a)
    (location a) (image_path a) (metadata a)
    (acknowledged a) v (acknowledged_at a).

Definition set_acknowledged_at (v : option datetime) (a : Alert) : Alert :=
  mkAlert (alert_id a) (hazard_id a) (severity a) (title a) (message a) (timestamp a)
    (location a) (image_path a) (metadata a)
    (acknowledged a) (acknowledged_by a) v.

(** [metadata[k] = v] *)
Definition setitem_metadata (k : string) (v : pyval) (a : Alert) : Alert :=
  set_metadata (<[k := v]> (metadata a)) a.

(** ** The manager and the object store *)

Record EscalationConfig := mkEscalation {
  enabled : bool;
  timeout : timedelta;
  max_escalations : Z
}.

(** A channel handler is called with [(alert, recipient)]; it returns or
    raises. *)
Definition Handler : Type := Alert → AlertRecipient → result unit.

(** What the outside world observes: handler calls, log records and timers
    started.  A log record carries the values interpolated in its message. *)
Inductive event :=
| LogAddedRecipient (recipient_name : string)
| LogSending (alert_title : string) (sev : AlertSeverity)
| Invoked (channel : AlertChannel) (alert : loc) (recipient : AlertRecipient)
| LogNoHandler (channel : AlertChannel)
| LogSendFailed (channel : AlertChannel) (recipient_name : string) (e : exn)
| LogAcknowledged (id by_ : string)
| LogEscalating (id : string)
| LogEscalated (id : string) (count : pyval)
| LogProcessingError (e : exn)
| TimerStarted (delay : timedelta) (id : string).

(** [heap] is the store of [Alert] objects, a location being an index into
    it; the other fields are the attributes of [AlertManager]. *)
Record State := mkState {
  heap : list Alert;
  recipients : list AlertRecipient;
  active_alerts : gmap string loc;
  alert_history : list loc;
  alert_queue : list loc;
  channel_handlers : AlertChannel → option Handler;
  escalation_config : EscalationConfig;
  trace : list event
}.

Definition with_heap (f : list Alert → list Alert) (s : State) : State :=
  mkState (f (heap s)) (recipients s) (active_alerts s) (alert_history s)
    (alert_queue s) (channel_handlers s) (escalation_config s) (trace s).

Definition with_recipients (f : list AlertRecipient → list AlertRecipient) (s : State) : State :=
  mkState (heap s) (f (recipients s)) (active_alerts s) (alert_history s)
    (alert_queue s) (channel_handlers s) (escalation_config s) (trace s).

Definition with_active_alerts (f : gmap string loc → gmap string loc) (s : State) : State :=
  mkState (heap s) (recipients s) (f (active_alerts s)) (alert_history s)
    (alert_queue s) (channel_handlers s) (escalation_config s) (trace s).

Definition with_alert_history (f : list loc → list loc) (s : State) : State :=
  mkState (heap s) (recipients s) (active_alerts s) (f (alert_history s))
    (alert_queue s) (channel_handlers s) (escalation_config s) (trace s).

Definition with_alert_queue (f : list loc → list loc) (s : State) : State :=
  mkState (heap s) (recipients s) (active_alerts s) (alert_history s)
    (f (alert_queue s)) (channel_handlers s) (escalation_config s) (trace s).

Definition with_trace (f : list event → list event) (s : State) : State :=
  mkState (heap s) (recipients s) (active_alerts s) (alert_history s)
    (alert_queue s) (channel_handlers s) (escalation_config s) (f (trace s)).

(** ** State and exception monad *)

Definition M (A : Type) : Type := State → result A * State.

#[global] Instance M_ret : MRet M := λ A a s, (Ok a, s).
#[global] Instance M_bind : MBind M := λ A B f m s,
  match m s with
  | (Ok a, s') => f a s'
  | (Raise e, s') => (Raise e, s')
  end.

Definition lift {A} (r : result A) : M A := λ s, (r, s).
Definition gets {A} (f : State → A) : M A := λ s, (Ok (f s), s).
Definition modify (f : State → State) : M unit := λ s, (Ok tt, f s).

(** [try: body except Exception as e: handler(e)] *)
Definition try_except {A} (body : M A) (handler : exn → M A) : M A := λ s,
  match body s with
  | (Ok a, s') => (Ok a, s')
  | (Raise e, s') => handler e s'
  end.

(** [for x in xs: body(x)] *)
Fixpoint for_each {A} (xs : list A) (body : A → M unit) : M unit :=
  match xs with
  | [] => mret tt
  | x :: rest => body x;; for_each rest body
  end.

(** Reading the object behind a reference *)
Definition deref (l : loc) : M Alert := λ s,
  match heap s !! l with
  | Some a => (Ok a, s)
  | None => (Raise InvalidReference, s)
  end.

(** Attribute assignment through a reference *)
Definition assign (l : loc) (f : Alert → Alert) : M unit :=
  a ← deref l; modify (with_heap (<[l := f a]>)).

(** A logger call, a handler call or a timer start *)
Definition emit (e : event) : M unit := modify (with_trace (λ t, t ++ [e])).

(** The caller evaluates [Alert(...)]: a new object *)
Definition construct (a : Alert) : M loc := λ s,
  (Ok (length (heap s)), with_heap (λ h, h ++ [a]) s).

(** ** [AlertManager] *)

Definition stub_handler : Handler := λ _ _, Ok tt.

(** [_initialize_handlers]: every channel has a sender, and the senders of
    the module only log or print. *)
Definition _initialize_handlers : AlertChannel → option Handler :=
  λ channel,
    match channel with
    | EMAIL | SMS | PUSH | WEBHOOK | SLACK | DISCORD | TELEGRAM | PAGERDUTY | CONSOLE =>
        Some stub_handler
    end.

(** [AlertManager.__init__], with an empty object store *)
Definition AlertManager_init : State :=
  {| heap := [];
     recipients := [];
     active_alerts := ∅;
     alert_history := [];
     alert_queue := [];
     channel_handlers := _initialize_handlers;
     escalation_config :=
       {| enabled := true; timeout := timedelta_minutes 5; max_escalations := 3 |};
     trace := [] |}.

Definition add_recipient (recipient : AlertRecipient) : M unit :=
  modify (with_recipients (λ rs, rs ++ [recipient]));;
  emit (LogAddedRecipient (name recipient)).

Definition send_alert (alert : loc) : M unit :=
  a ← deref alert;
  emit (LogSending (title a) (severity a));;
  modify (with_active_alerts (<[alert_id a := alert]>));;
  modify (with_alert_queue (λ q, q ++ [alert]));;
  modify (with_alert_history (λ h, h ++ [alert])).

(** One pass of the loop over [recipient.channels] in [_deliver_alert] *)
Definition deliver_channel (alert : loc) (recipient : AlertRecipient)
    (channel : AlertChannel) : M unit :=
  try_except
    (handler ← gets (λ s, channel_handlers s channel);
     match handler with
     | Some h =>
         emit (Invoked channel alert recipient);;
         a ← deref alert;
         lift (h a recipient)
     | None => emit (LogNoHandler channel)
     end)
    (λ e, emit (LogSendFailed channel (name recipient) e)).

(** [_deliver_alert], with [current_time = datetime.now()] as [now] *)
Definition _deliver_alert (alert : loc) (now : datetime) : M unit :=
  let current_time := now in
  rs ← gets recipients;
  for_each rs (λ recipient,
    a ← deref alert;
    eligible ← lift (should_receive_alert recipient (severity a) current_time);
    if negb eligible then mret tt
    else for_each (channels recipient) (deliver_channel alert recipient)).

(** One iteration of the loop of [_process_alerts]; an empty queue
    ([queue.Empty]) continues. *)
Definition _process_alerts (now : datetime) : M unit :=
  q ← gets alert_queue;
  match q with
  | [] => mret tt
  | alert :: rest =>
      modify (with_alert_queue (λ _, rest));;
      try_except
        (_deliver_alert alert now;;
         cfg ← gets escalation_config;
         if enabled cfg then
           a ← deref alert;
           emit (TimerStarted (timeout cfg) (alert_id a))
         else mret tt)
        (λ e, emit (LogProcessingError e))
  end.

(** [acknowledge_alert], with [datetime.now()] as [now] *)
Definition acknowledge_alert (id by_ : string) (now : datetime) : M unit :=
  active ← gets active_alerts;
  match active !! id with
  | Some alert =>
      assign alert (set_acknowledged true);;
      assign alert (set_acknowledged_by (Some by_));;
      assign alert (set_acknowledged_at (Some now));;
      emit (LogAcknowledged id by_);;
      modify (with_active_alerts (delete id))
  | None => mret tt
  end.

Definition _escalate_alert (alert : loc) : M unit :=
  a ← deref alert;
  (if bool_decide (severity a ≠ CRITICAL) then
     sev ← lift (AlertSeverity_of_value (severity_value (severity a) + 1));
     assign alert (set_severity sev)
   else mret tt);;
  assign alert (setitem_metadata "escalated" (PBool true));;
  a ← deref alert;
  count ← lift (py_add_int (default (PInt 0) (metadata a !! "escalation_count")) 1);
  assign alert (setitem_metadata "escalation_count" count);;
  modify (with_alert_queue (λ q, q ++ [alert]));;
  a ← deref alert;
  count ← lift (getitem (metadata a) "escalation_count");
  emit (LogEscalated (alert_id a) count).

(** [_check_escalation], the callback of the escalation timer, with
    [datetime.now()] as [now] *)
Definition _check_escalation (id : string) (now : datetime) : M unit :=
  active ← gets active_alerts;
  match active !! id with
  | None => mret tt
  | Some alert =>
      a ← deref alert;
      let time_since_alert := (now - timestamp a)%Z in
      cfg ← gets escalation_config;
      if (timeout cfg <=? time_since_alert)%Z then
        emit (LogEscalating id);;
        _escalate_alert alert
      else mret tt
  end.

(** ** Statistics *)

(** The objects behind [self.alert_history], in order *)
Definition history_objects (s : State) : list Alert :=
  omap (λ l, heap s !! l) (alert_history s).

(** [(acknowledged_at - timestamp).total_seconds() / 60] *)
Definition ack_minutes (acknowledged_at_ timestamp_ : datetime) : Q :=
  let total_seconds := (inject_Z (acknowledged_at_ - timestamp_) / inject_Z 1000000)%Q in
  (total_seconds / inject_Z 60)%Q.

(** The loop of [_calculate_avg_ack_time], appending to [ack_times] *)
Fixpoint collect_ack_times (alerts : list Alert) (ack_times : list Q) : list Q :=
  match alerts with
  | [] => ack_times
  | alert :: rest =>
      match acknowledged alert, acknowledged_at alert with
      | true, Some at_ =>
          let delta := ack_minutes at_ (timestamp alert) in
          collect_ack_times rest (ack_times ++ [delta])
      | _, _ => collect_ack_times rest ack_times
      end
  end.

(** [sum(xs)] *)
Definition py_sum (xs : list Q) : Q := fold_left Qplus xs 0%Q.

(** [x / y] *)
Definition py_truediv (x y : Q) : result Q :=
  if Qeq_bool y 0 then Raise ZeroDivisionError else Ok (x / y)%Q.

Definition _calculate_avg_ack_time (s : State) : result Q :=
  let ack_times := collect_ack_times (history_objects s) [] in
  match ack_times with
  | _ :: _ => py_truediv (py_sum ack_times) (inject_Z (Z.of_nat (length ack_times)))
  | [] => Ok 0%Q
  end.

Module Stats.

(** The dict returned by [get_alert_statistics], one field per key *)
Record t := mk {
  total_alerts : nat;
  active_alerts : nat;
  acknowledged_alerts : nat;
  by_severity : list (AlertSeverity * nat);
  average_acknowledgment_time : Q
}.

End Stats.

Definition get_alert_statistics (s : State) : result Stats.t :=
  let total := length (alert_history s) in
  let active := size (active_alerts s) in
  let acknowledged_ := length (filter (λ a, acknowledged a = true) (history_objects s)) in
  let by_severity_ :=
    (λ sev, (sev, length (filter (λ a, severity a = sev) (history_objects s))))
      <$> AlertSeverity_members in
  average ← _calculate_avg_ack_time s;
  Ok {| Stats.total_alerts := total;
        Stats.active_alerts := active;
        Stats.acknowledged_alerts := acknowledged_;
        Stats.by_severity := by_severity_;
        Stats.average_acknowledgment_time := average |}.

(** ** Runs of the manager *)

(** What can happen to a manager: the caller builds an alert or calls a
    public method, the worker thread takes the next queued alert, or an
    escalation timer calls back.  Timers may call back for any id at any
    time, which covers every schedule of the timers actually started. *)
Inductive op :=
| Construct (a : Alert)
| AddRecipient (recipient : AlertRecipient)
| SendAlert (alert : loc)
| Acknowledge (id by_ : string) (now : datetime)
| ProcessNext (now : datetime)
| TimerFires (id : string) (now : datetime).

Definition exec (o : op) : M unit :=
  match o with
  | Construct a => _ ← construct a; mret tt
  | AddRecipient recipient => add_recipient recipient
  | SendAlert alert => send_alert alert
  | Acknowledge id by_ now => acknowledge_alert id by_ now
  | ProcessNext now => _process_alerts now
  | TimerFires id now => _check_escalation id now
  end.

(** An exception ends the call, not the manager: the state it leaves is the
    state the next operation sees. *)
Definition step (s : State) (o : op) : State := (exec o s).2.

Definition run (ops : list op) (s : State) : State := foldl step s ops.

Definition reachable (s : State) : Prop := ∃ ops, s = run ops AlertManager_init.

(** * Specifications

    The vocabulary in which the properties of the manager are stated, and the
    concrete managers they are tried on. *)

(** ** Recipient eligibility *)

(** The recipient has no active-hours window: the attribute is [None] or an
    empty dict, the two values Python's [if self.active_hours:] skips. *)
Definition no_window (r : AlertRecipient) : Prop :=
  match active_hours r with
  | None => True
  | Some hours => hours = ∅
  end.

(** [hhmm] lies in the window of [r], both ends included, in the order of
    Python strings. *)
Definition within_window (r : AlertRecipient) (hhmm : string) : Prop :=
  ∃ hours start end_,
    active_hours r = Some hours ∧
    hours !! "start" = Some start ∧ hours !! "end" = Some end_ ∧
    String.leb start hhmm = true ∧ String.leb hhmm end_ = true.

(** The state after the events [evs] have been observed *)
Definition emits (evs : list event) (s : State) : State := with_trace (λ t, t ++ evs) s.

(** ** Delivery *)

(** What one (recipient, channel) pair contributes to the trace: the call of
    the channel's handler, followed by an error record when it raised, or a
    warning when the channel has no handler. *)
Definition attempt (handlers : AlertChannel → option Handler) (l : loc) (a : Alert)
    (r : AlertRecipient) (channel : AlertChannel) : list event :=
  match handlers channel with
  | Some h =>
      Invoked channel l r ::
      match h a r with
      | Ok _ => []
      | Raise e => [LogSendFailed channel (name r) e]
      end
  | None => [LogNoHandler channel]
  end.

(** The trace and outcome of a delivery over the recipients [rs]: the
    attempts of every eligible recipient, in order, up to the first recipient
    whose eligibility check raises. *)
Fixpoint delivery (handlers : AlertChannel → option Handler) (now : datetime) (l : loc)
    (a : Alert) (rs : list AlertRecipient) : list event * result unit :=
  match rs with
  | [] => ([], Ok tt)
  | r :: rest =>
      match should_receive_alert r (severity a) now with
      | Raise e => ([], Raise e)
      | Ok false => delivery handlers now l a rest
      | Ok true =>
          let '(evs, res) := delivery handlers now l a rest in
          (flat_map (attempt handlers l a r) (channels r) ++ evs, res)
      end
  end.

(** The recipient passes the eligibility check of [_deliver_alert]. *)
Definition eligible (r : AlertRecipient) (sev : AlertSeverity) (now : datetime) : bool :=
  match should_receive_alert r sev now with
  | Ok true => true
  | _ => false
  end.

(** ** Mean acknowledgement latency *)

(** The acknowledgement latency of an alert in minutes,
    [acknowledged_at - timestamp], for an alert that has been acknowledged. *)
Definition ack_latency (a : Alert) : option Q :=
  if acknowledged a
  then (λ at_, inject_Z (at_ - timestamp a) / inject_Z microseconds_per_minute)%Q
         <$> acknowledged_at a
  else None.

Definition total (xs : list Q) : Q := foldr Qplus 0%Q xs.

(** The arithmetic mean of the latencies of the acknowledged alerts, and
    zero when there is none. *)
Definition mean_ack_latency (alerts : list Alert) : Q :=
  match omap ack_latency alerts with
  | [] => 0%Q
  | lat => (total lat / inject_Z (Z.of_nat (length lat)))%Q
  end.


(** ** Escalation *)

(** One level up, [CRITICAL] being the top *)
Definition bump (sev : AlertSeverity) : AlertSeverity :=
  match sev with
  | LOW => MEDIUM
  | MEDIUM => HIGH
  | HIGH | CRITICAL => CRITICAL
  end.

(** [alert.metadata.get('escalation_count', 0)] *)
Definition escalation_count (a : Alert) : pyval :=
  default (PInt 0) (metadata a !! "escalation_count").

(** The alert after the severity bump and the [escalated] tag *)
Definition tagged (a : Alert) : Alert :=
  setitem_metadata "escalated" (PBool true) (set_severity (bump (severity a)) a).

(** The alert after an escalation that found the count [n] *)
Definition escalated (n : Z) (a : Alert) : Alert :=
  setitem_metadata "escalation_count" (PInt (n + 1)) (tagged a).

(** The two alerts agree on every attribute but [severity] and [metadata]. *)
Definition differ_in_severity_metadata_only (a a' : Alert) : Prop :=
  alert_id a' = alert_id a ∧ hazard_id a' = hazard_id a ∧ title a' = title a ∧
  message a' = message a ∧ timestamp a' = timestamp a ∧ location a' = location a ∧
  image_path a' = image_path a ∧ acknowledged a' = acknowledged a ∧
  acknowledged_by a' = acknowledged_by a ∧ acknowledged_at a' = acknowledged_at a.

(** What the timer callback does to an active alert when it escalates it:
    the call returns, the severity has gone one level up (staying at
    [CRITICAL]), the metadata carries [escalated] and a count one higher, and
    the alert is at the back of the delivery queue. *)
Definition escalates (id : string) (now : datetime) (l : loc) (a : Alert) (s : State) : Prop :=
  ∀ n, py_num (escalation_count a) = Some n →
    ∃ s' a',
      _check_escalation id now s = (Ok tt, s') ∧
      heap s' !! l = Some a' ∧
      (severity a = CRITICAL → severity a' = CRITICAL) ∧
      (severity a ≠ CRITICAL →
         severity_value (severity a') = (severity_value (severity a) + 1)%Z) ∧
      metadata a' !! "escalated" = Some (PBool true) ∧
      metadata a' !! "escalation_count" = Some (PInt (n + 1)) ∧
      alert_queue s' = alert_queue s ++ [l].

(** The fire of the timer as a function of the active set alone: nothing
    happens for an id that is not active, and an active alert is escalated. *)
Definition fire_escalates_active (id : string) (now : datetime) (s : State) : Prop :=
  match active_alerts s !! id with
  | None => _check_escalation id now s = (Ok tt, s)
  | Some l => ∀ a, heap s !! l = Some a → escalates id now l a s
  end.

(** The alert of the module's self-test, created at time 0 *)
Definition test_alert : Alert :=
  {| alert_id := "TEST-001"; hazard_id := "HAZ-001"; severity := HIGH;
     title := "Fire Detected"; message := "A fire has been detected";
     timestamp := 0; location := None; image_path := None; metadata := ∅;
     acknowledged := false; acknowledged_by := None; acknowledged_at := None |}.

(** A new manager after [send_alert(test_alert)] *)
Definition test_alert_sent : State :=
  run [Construct test_alert; SendAlert 0] AlertManager_init.

(** ** Submission and acknowledgement *)

(** The alert after [acknowledge_alert] has set its three fields *)
Definition acked (by_ : string) (now : datetime) (a : Alert) : Alert :=
  set_acknowledged_at (Some now) (set_acknowledged_by (Some by_) (set_acknowledged true a)).

(** ** Well-formed states *)

(** Every reference held by the manager points into the object store, an
    active alert is filed under its own id, and it is in the history. *)
Record wf (s : State) : Prop := mk_wf {
  wf_active : ∀ id l, active_alerts s !! id = Some l →
    (∃ a, heap s !! l = Some a ∧ alert_id a = id) ∧ l ∈ alert_history s;
  wf_history : ∀ l, l ∈ alert_history s → l < length (heap s);
  wf_queue : ∀ l, l ∈ alert_queue s → l < length (heap s)
}.

(** ** No active alert is acknowledged *)

Definition active_unacknowledged (s : State) : Prop :=
  ∀ id l a, active_alerts s !! id = Some l → heap s !! l = Some a → acknowledged a = false.

(** The caller hands [send_alert] an alert that is not acknowledged. *)
Definition sends_unacknowledged_alert (o : op) (s : State) : bool :=
  match o with
  | SendAlert l =>
      match heap s !! l with
      | Some a => negb (acknowledged a)
      | None => true
      end
  | _ => true
  end.

(** Every [send_alert] of the run is given an alert that is not acknowledged
    at the time of the call. *)
Fixpoint sends_unacknowledged (ops : list op) (s : State) : bool :=
  match ops with
  | [] => true
  | o :: rest => sends_unacknowledged_alert o s && sends_unacknowledged rest (step s o)
  end.

(** ** Submission followed by acknowledgement *)

(** How many times the history holds the object at [l] *)
Definition occurrences (l : loc) (h : list loc) : nat := length (filter (λ x, x = l) h).

(** No alert with this id has been submitted so far. *)
Definition never_submitted (id : string) (s : State) : Prop :=
  ∀ l a, l ∈ alert_history s → heap s !! l = Some a → alert_id a ≠ id.

(** The operation is neither an acknowledgement of [id] nor the submission
    of an alert with that id. *)
Definition leaves_alone (id : string) (o : op) (s : State) : bool :=
  match o with
  | Acknowledge id' _ _ => negb (String.eqb id' id)
  | SendAlert l' =>
      match heap s !! l' with
      | Some a' => negb (String.eqb (alert_id a') id)
      | None => true
      end
  | _ => true
  end.

Fixpoint all_leave_alone (id : string) (ops : list op) (s : State) : bool :=
  match ops with
  | [] => true
  | o :: rest => leaves_alone id o s && all_leave_alone id rest (step s o)
  end.

(** The alert at [l] is active under [id] and once in the history. *)
Definition filed (id : string) (l : loc) (s : State) : Prop :=
  active_alerts s !! id = Some l ∧ occurrences l (alert_history s) = 1.

(** A recipient on duty from 22:00 to 06:00 *)
Definition night_recipient : AlertRecipient :=
  {| name := "Night Shift"; channels := [SMS; CONSOLE];
     email := None; phone := Some "555-0100"; webhook_url := None;
     slack_channel := None; telegram_chat_id := None;
     severity_threshold := LOW;
     active_hours := Some {[ "start" := "22:00"; "end" := "06:00" ]} |}.

(** The recipient R of the delivery scenario: threshold [MEDIUM], channel
    [CONSOLE], on duty from 09:00 to 17:00 *)
Definition day_recipient : AlertRecipient :=
  {| name := "Test User"; channels := [CONSOLE];
     email := Some "test@example.com"; phone := None; webhook_url := None;
     slack_channel := None; telegram_chat_id := None;
     severity_threshold := MEDIUM;
     active_hours := Some {[ "start" := "09:00"; "end" := "17:00" ]} |}.

(** A recipient reached at any time over three channels *)
Definition on_call : AlertRecipient :=
  {| name := "On Call"; channels := [SMS; CONSOLE; EMAIL];
     email := Some "oncall@example.com"; phone := Some "555-0101"; webhook_url := None;
     slack_channel := None; telegram_chat_id := None;
     severity_threshold := LOW;
     active_hours := None |}.

(** A manager whose SMS sender raises and which has no console sender, with
    the three recipients above and [test_alert] submitted *)
Definition faulty_senders : State :=
  let s := run [AddRecipient on_call; AddRecipient night_recipient;
                AddRecipient day_recipient;
                Construct test_alert; SendAlert 0] AlertManager_init in
  mkState (heap s) (recipients s) (active_alerts s) (alert_history s) (alert_queue s)
    (λ channel,
       match channel with
       | SMS => Some (λ _ _, Raise (SenderFailure "gateway down"))
       | CONSOLE => None
       | _ => Some stub_handler
       end)
    (escalation_config s) (trace s).

(** * Further operations and vocabulary *)

(** ** Times of day *)

(** The text ['%H:%M'] prints for hour [h] and minute [m] *)
Definition hhmm (h m : Z) : string := two_digits h +:+ ":" +:+ two_digits m.

(** Minutes since midnight *)
Definition minute_of_day (t : datetime) : Z := (60 * hour_of t + minute_of t)%Z.

(** ** [AlertManager.get_active_alerts]

    The result holds references.  A Python dict lists its values in insertion
    order, which the finite map does not record: the list below has the right
    elements, each as often as Python returns it, in an order of its own. *)
Definition get_active_alerts (severity_ : option AlertSeverity) (s : State) : list loc :=
  let alerts := (map_to_list (active_alerts s)).*2 in
  match severity_ with
  | Some sev => filter (λ l, severity <$> heap s !! l = Some sev) alerts
  | None => alerts
  end.

(** * Proofs *)

(** Unfolds the monad's operations so that [cbn] can run a computation. *)
Ltac munfold :=
  unfold mbind, M_bind, mret, M_ret, result_bind, result_ret,
    emit, gets, lift, modify, try_except in *.

Example strftime_HM_morning :
  strftime_HM (timedelta_minutes (9 * 60 + 5)) = "09:05".
Proof. reflexivity. Qed.

(** ** Recipient eligibility *)

Lemma dict_truthy_false {V} (d : gmap string V) : dict_truthy d = false ↔ d = ∅.
Proof.
  unfold dict_truthy. rewrite negb_false_iff, Nat.eqb_eq. apply map_size_empty_iff.
Qed.

Lemma dict_truthy_true {V} (d : gmap string V) : dict_truthy d = true ↔ d ≠ ∅.
Proof.
  rewrite <- dict_truthy_false. destruct (dict_truthy d); split; congruence.
Qed.

Lemma dict_truthy_lookup {V} (d : gmap string V) k v : d !! k = Some v → dict_truthy d = true.
Proof.
  intros Hk. apply dict_truthy_true. intros ->. by rewrite lookup_empty in Hk.
Qed.

Lemma should_receive_alert_true (r : AlertRecipient) (sev : AlertSeverity) (now : datetime) :
  should_receive_alert r sev now = Ok true ↔
  (severity_value (severity_threshold r) ≤ severity_value sev)%Z ∧
  (no_window r ∨ within_window r (strftime_HM now)).
Proof.
  unfold should_receive_alert, no_window, within_window.
  destruct (Z.ltb_spec (severity_value sev) (severity_value (severity_threshold r)))
    as [Hlt|Hge].
  { split; [discriminate | intros [? _]; lia]. }
  destruct (active_hours r) as [hours|]; [|naive_solver].
  destruct (dict_truthy hours) eqn:Ht.
  - apply dict_truthy_true in Ht. unfold getitem. cbn.
    destruct (hours !! "start") as [start|] eqn:Hs; cbn;
      [destruct (String.leb start (strftime_HM now)) eqn:H1; cbn;
       [destruct (hours !! "end") as [end_|] eqn:He; cbn;
        [destruct (String.leb (strftime_HM now) end_) eqn:H2; cbn|]|]|];
      try (split; [discriminate|];
           intros [_ [?|(?&?&?&?&?&?&?&?)]]; simplify_eq; congruence).
    split; [|done]. intros _. split; [done|]. right. by exists hours, start, end_.
  - apply dict_truthy_false in Ht. naive_solver.
Qed.

(** A well-formed recipient never makes the check raise. *)
Lemma should_receive_alert_returns (r : AlertRecipient) (sev : AlertSeverity) (now : datetime) :
  (∀ hours, active_hours r = Some hours →
     hours = ∅ ∨ (is_Some (hours !! "start") ∧ is_Some (hours !! "end"))) →
  ∃ b, should_receive_alert r sev now = Ok b.
Proof.
  intros Hwf. unfold should_receive_alert.
  destruct (_ <? _)%Z; [eauto|].
  destruct (active_hours r) as [hours|]; [|eauto].
  destruct (dict_truthy hours) eqn:Ht; [|eauto].
  apply dict_truthy_true in Ht.
  destruct (Hwf hours eq_refl) as [?|[[start Hs] [end_ He]]]; [done|].
  unfold getitem. rewrite Hs. cbn.
  destruct (String.leb start _); cbn; [rewrite He; cbn|]; [|eauto].
  destruct (String.leb _ end_); cbn; eauto.
Qed.

Lemma string_leb_trans (s1 s2 s3 : string) :
  String.leb s1 s2 = true → String.leb s2 s3 = true → String.leb s1 s3 = true.
Proof.
  intros H12 H23. apply Is_true_true.
  change (String.le s1 s3). trans s2; by apply Is_true_true.
Qed.

Lemma string_ltb_not_leb (s1 s2 : string) :
  String.ltb s1 s2 = true → String.leb s2 s1 = false.
Proof.
  unfold String.ltb, String.leb. rewrite (String.compare_antisym s1 s2).
  by destruct (String.compare s2 s1).
Qed.

(** ** Running monadic code *)

Lemma bind_run {A B} (m : M A) (f : A → M B) (s : State) :
  (m ≫= f) s = match m s with
               | (Ok a, s') => f a s'
               | (Raise e, s') => (Raise e, s')
               end.
Proof. reflexivity. Qed.

Lemma bind_ok {A B} (m : M A) (f : A → M B) (s s' : State) (a : A) :
  m s = (Ok a, s') → (m ≫= f) s = f a s'.
Proof. intros H. by rewrite bind_run, H. Qed.

Lemma deref_ok (l : loc) (a : Alert) (s : State) :
  heap s !! l = Some a → deref l s = (Ok a, s).
Proof. unfold deref. by intros ->. Qed.

Lemma assign_ok (l : loc) (f : Alert → Alert) (a : Alert) (s : State) :
  heap s !! l = Some a → assign l f s = (Ok tt, with_heap (<[l := f a]>) s).
Proof. intros H. unfold assign. by rewrite (bind_ok _ _ _ _ _ (deref_ok _ _ _ H)). Qed.

Lemma emits_nil (s : State) : emits [] s = s.
Proof. destruct s. unfold emits, with_trace. cbn. by rewrite app_nil_r. Qed.

Lemma emits_app (evs1 evs2 : list event) (s : State) :
  emits evs2 (emits evs1 s) = emits (evs1 ++ evs2) s.
Proof. unfold emits, with_trace. cbn. by rewrite app_assoc. Qed.

(** ** Delivery *)

Lemma deliver_channel_run (l : loc) (a : Alert) (r : AlertRecipient) (channel : AlertChannel)
    (s : State) :
  heap s !! l = Some a →
  deliver_channel l r channel s = (Ok tt, emits (attempt (channel_handlers s) l a r channel) s).
Proof.
  intros Hl. unfold deliver_channel, attempt, deref. munfold. cbn.
  destruct (channel_handlers s channel) as [h|]; cbn; [|done].
  rewrite Hl. destruct (h a r) as [[]|e]; cbn; [done|].
  unfold emits, with_trace. cbn. by rewrite <- app_assoc.
Qed.

Lemma for_each_channels_run (l : loc) (a : Alert) (r : AlertRecipient)
    (chs : list AlertChannel) (s : State) :
  heap s !! l = Some a →
  for_each chs (deliver_channel l r) s =
    (Ok tt, emits (flat_map (attempt (channel_handlers s) l a r) chs) s).
Proof.
  revert s. induction chs as [|ch chs IH]; intros s Hl; cbn.
  - by rewrite emits_nil.
  - rewrite (bind_ok _ _ _ _ _ (deliver_channel_run l a r ch s Hl)).
    rewrite IH by done. by rewrite emits_app.
Qed.

Lemma for_each_recipients_run (l : loc) (a : Alert) (now : datetime)
    (rs : list AlertRecipient) (s : State) :
  heap s !! l = Some a →
  for_each rs (λ recipient,
    a ← deref l;
    eligible ← lift (should_receive_alert recipient (severity a) now);
    if negb eligible then mret tt
    else for_each (channels recipient) (deliver_channel l recipient)) s =
  ((delivery (channel_handlers s) now l a rs).2,
   emits (delivery (channel_handlers s) now l a rs).1 s).
Proof.
  revert s. induction rs as [|r rs IH]; intros s Hl; cbn.
  - by rewrite emits_nil.
  - rewrite bind_run.
    rewrite (bind_ok _ _ _ _ _ (deref_ok _ _ _ Hl)).
    rewrite bind_run. unfold lift at 1.
    destruct (should_receive_alert r (severity a) now) as [[]|e]; cbn.
    + rewrite (for_each_channels_run l a r _ s Hl).
      rewrite IH by done. cbn.
      destruct (delivery _ now l a rs) as [evs res]. cbn. by rewrite emits_app.
    + by rewrite IH.
    + by rewrite emits_nil.
Qed.

Lemma _deliver_alert_run (l : loc) (a : Alert) (now : datetime) (s : State) :
  heap s !! l = Some a →
  _deliver_alert l now s =
    ((delivery (channel_handlers s) now l a (recipients s)).2,
     emits (delivery (channel_handlers s) now l a (recipients s)).1 s).
Proof. intros Hl. unfold _deliver_alert. cbn. by apply for_each_recipients_run. Qed.

Lemma delivery_invoked (handlers : AlertChannel → option Handler) (now : datetime) (l : loc)
    (a : Alert) (rs : list AlertRecipient) (ch : AlertChannel) (l' : loc) (r : AlertRecipient) :
  Invoked ch l' r ∈ (delivery handlers now l a rs).1 →
  r ∈ rs ∧ ch ∈ channels r ∧ should_receive_alert r (severity a) now = Ok true.
Proof.
  induction rs as [|r0 rs IH]; cbn.
  - by intros ?%elem_of_nil.
  - destruct (should_receive_alert r0 (severity a) now) as [[]|e] eqn:Hr0; cbn.
    + destruct (delivery handlers now l a rs) as [evs res]. cbn in *.
      intros [Hin|Hin]%elem_of_app.
      * apply list_elem_of_In, in_flat_map in Hin as (ch0 & Hch0 & Hin).
        apply list_elem_of_In in Hch0. unfold attempt in Hin.
        destruct (handlers ch0) as [h|]; cbn in Hin.
        -- destruct Hin as [Heq|Hin].
           { simplify_eq. split; [left|]; done. }
           destruct (h a r0); cbn in Hin; [done|].
           by destruct Hin as [?|[]].
        -- by destruct Hin as [?|[]].
      * destruct (IH Hin) as (?&?&?). split; [by right|done].
    + intros Hin. destruct (IH Hin) as (?&?&?). split; [by right|done].
    + by intros ?%elem_of_nil.
Qed.

Lemma delivery_raises (handlers : AlertChannel → option Handler) (now : datetime) (l : loc)
    (a : Alert) (rs : list AlertRecipient) (e : exn) :
  (delivery handlers now l a rs).2 = Raise e →
  ∃ r, r ∈ rs ∧ should_receive_alert r (severity a) now = Raise e.
Proof.
  induction rs as [|r0 rs IH]; cbn; [done|].
  destruct (should_receive_alert r0 (severity a) now) as [[]|e0] eqn:Hr0; cbn.
  - destruct (delivery handlers now l a rs) as [evs res]. cbn in *.
    intros Hres. destruct (IH Hres) as (r & ? & ?). exists r. split; [by right|done].
  - intros Hres. destruct (IH Hres) as (r & ? & ?). exists r. split; [by right|done].
  - intros [= ->]. exists r0. split; [by left|done].
Qed.

Lemma delivery_checked (handlers : AlertChannel → option Handler) (now : datetime) (l : loc)
    (a : Alert) (rs : list AlertRecipient) :
  (∀ r, r ∈ rs → ∃ b, should_receive_alert r (severity a) now = Ok b) →
  delivery handlers now l a rs =
    (flat_map (λ r, if eligible r (severity a) now
                    then flat_map (attempt handlers l a r) (channels r)
                    else []) rs,
     Ok tt).
Proof.
  induction rs as [|r0 rs IH]; intros Hok; cbn; [done|].
  destruct (Hok r0) as [b Hb]; [by left|].
  unfold eligible at 1. rewrite Hb.
  rewrite IH by (intros r Hr; apply Hok; by right).
  by destruct b.
Qed.

(** C7: in [_deliver_alert] every pair of an eligible recipient and one of
    its channels is attempted on its own.  A channel without a handler leaves
    a warning, a handler that raises leaves an error record, and in both cases
    the loop goes on with the remaining channels and recipients: with the
    eligibility checks of all recipients returning, the call returns normally
    and the trace grows by the attempts of all pairs, in order, whatever the
    handlers do.  An exception leaving [_deliver_alert] is never a sender's:
    it is one raised by a recipient's eligibility check. *)
Theorem deliver_alert_isolates_failures (l : loc) (a : Alert) (now : datetime) (s : State) :
  heap s !! l = Some a →
  (∀ e, (_deliver_alert l now s).1 = Raise e →
        ∃ r, r ∈ recipients s ∧ should_receive_alert r (severity a) now = Raise e) ∧
  ((∀ r, r ∈ recipients s → ∃ b, should_receive_alert r (severity a) now = Ok b) →
   _deliver_alert l now s =
     (Ok tt,
      emits (flat_map (λ r, if eligible r (severity a) now
                            then flat_map (attempt (channel_handlers s) l a r) (channels r)
                            else []) (recipients s)) s)) ∧
  (∀ r ch,
     attempt (channel_handlers s) l a r ch =
       match channel_handlers s ch with
       | None => [LogNoHandler ch]
       | Some h =>
           match h a r with
           | Ok _ => [Invoked ch l r]
           | Raise e => [Invoked ch l r; LogSendFailed ch (name r) e]
           end
       end).
Proof.
  intros Hl. rewrite (_deliver_alert_run l a now s Hl). cbn. split; [|split].
  - apply delivery_raises.
  - intros Hok. by rewrite delivery_checked.
  - intros r ch. unfold attempt.
    destruct (channel_handlers s ch) as [h|]; [|done]. by destruct (h a r).
Qed.

(** C2: [should_receive_alert] returns [True] exactly when the severity
    reaches the recipient's threshold and either the recipient has no
    active-hours window or the time of day, as a zero-padded 'HH:MM' string,
    lies between the window's start and end in string order, both included.
    Hence a delivery never calls a channel handler for a recipient whose
    threshold exceeds the alert's severity. *)
Theorem should_receive_alert_threshold_and_window (r : AlertRecipient) (sev : AlertSeverity)
    (now : datetime) (l : loc) (a : Alert) (s : State) :
  (should_receive_alert r sev now = Ok true ↔
     (severity_value (severity_threshold r) ≤ severity_value sev)%Z ∧
     (no_window r ∨ within_window r (strftime_HM now))) ∧
  (heap s !! l = Some a →
   ∃ evs, trace (_deliver_alert l now s).2 = trace s ++ evs ∧
     ∀ ch l' r', Invoked ch l' r' ∈ evs →
       ¬ (severity_value (severity a) < severity_value (severity_threshold r'))%Z).
Proof.
  split; [apply should_receive_alert_true|].
  intros Hl. rewrite (_deliver_alert_run l a now s Hl). cbn.
  eexists. split; [done|].
  intros ch l' r' (_ & _ & Hok)%delivery_invoked.
  apply should_receive_alert_true in Hok as [Hge _]. lia.
Qed.

(** C9: a window whose start is greater than its end in string order, as a
    window across midnight is, matches no time: the check returns [False] for
    every time and every severity. *)
Theorem overnight_window_never_matches (r : AlertRecipient) (hours : gmap string string)
    (start end_ : string) (sev : AlertSeverity) (now : datetime) :
  active_hours r = Some hours →
  hours !! "start" = Some start →
  hours !! "end" = Some end_ →
  String.ltb end_ start = true →
  should_receive_alert r sev now = Ok false.
Proof.
  intros Hr Hs He Hlt. unfold should_receive_alert.
  destruct (_ <? _)%Z; [done|].
  rewrite Hr, (dict_truthy_lookup _ _ _ Hs). unfold getitem. rewrite Hs. cbn.
  destruct (String.leb start (strftime_HM now)) eqn:H1; cbn; [|done].
  rewrite He. cbn.
  destruct (String.leb (strftime_HM now) end_) eqn:H2; cbn; [|done].
  pose proof (string_leb_trans _ _ _ H1 H2) as H3.
  apply string_ltb_not_leb in Hlt. congruence.
Qed.

(** ** Statistics *)

Lemma ack_minutes_latency (at_ ts : datetime) :
  (ack_minutes at_ ts == inject_Z (at_ - ts) / inject_Z microseconds_per_minute)%Q.
Proof.
  unfold ack_minutes, microseconds_per_minute.
  change (inject_Z 60000000) with (inject_Z 1000000 * inject_Z 60)%Q.
  by field.
Qed.

Lemma collect_ack_times_length (alerts : list Alert) (acc : list Q) :
  length (collect_ack_times alerts acc) = length acc + length (omap ack_latency alerts).
Proof.
  revert acc. induction alerts as [|a alerts IH]; intros acc; cbn.
  { lia. }
  unfold ack_latency at 1.
  destruct (acknowledged a), (acknowledged_at a); cbn; rewrite IH, ?length_app; cbn; lia.
Qed.

Lemma fold_left_Qplus (xs : list Q) (acc : Q) :
  (fold_left Qplus xs acc == acc + total xs)%Q.
Proof.
  revert acc. induction xs as [|x xs IH]; intros acc; cbn.
  - by rewrite Qplus_0_r.
  - rewrite IH. by rewrite Qplus_assoc.
Qed.

Lemma total_app (xs ys : list Q) : (total (xs ++ ys) == total xs + total ys)%Q.
Proof.
  induction xs as [|x xs IH]; cbn.
  - by rewrite Qplus_0_l.
  - rewrite IH. by rewrite Qplus_assoc.
Qed.

Lemma collect_ack_times_total (alerts : list Alert) (acc : list Q) :
  (total (collect_ack_times alerts acc) == total acc + total (omap ack_latency alerts))%Q.
Proof.
  revert acc. induction alerts as [|a alerts IH]; intros acc; cbn.
  { by rewrite Qplus_0_r. }
  unfold ack_latency at 1.
  destruct (acknowledged a), (acknowledged_at a) as [at_|]; cbn; rewrite IH; try done.
  rewrite total_app. cbn. rewrite ack_minutes_latency, Qplus_0_r. by rewrite Qplus_assoc.
Qed.

Lemma py_truediv_length (x : Q) (n : nat) :
  py_truediv x (inject_Z (Z.of_nat (S n))) = Ok (x / inject_Z (Z.of_nat (S n)))%Q.
Proof. unfold py_truediv. by destruct n. Qed.

Lemma _calculate_avg_ack_time_mean (s : State) :
  ∃ q, _calculate_avg_ack_time s = Ok q ∧ (q == mean_ack_latency (history_objects s))%Q.
Proof.
  unfold _calculate_avg_ack_time, mean_ack_latency.
  pose proof (collect_ack_times_length (history_objects s) []) as Hlen.
  pose proof (collect_ack_times_total (history_objects s) []) as Htot.
  destruct (collect_ack_times (history_objects s) []) as [|x xs] eqn:Hc;
    destruct (omap ack_latency (history_objects s)) as [|y ys] eqn:Ho;
    cbn in Hlen; try lia.
  - by exists 0%Q.
  - injection Hlen as Hlen. cbn [length]. rewrite py_truediv_length. eexists. split; [done|].
    unfold py_sum. rewrite fold_left_Qplus, Qplus_0_l, Htot. cbn [total foldr].
    rewrite Qplus_0_l, Hlen. done.
Qed.


Lemma get_alert_statistics_returns (s : State) :
  ∃ st, get_alert_statistics s = Ok st ∧
        Stats.total_alerts st = length (alert_history s) ∧
        Stats.active_alerts st = size (active_alerts s) ∧
        _calculate_avg_ack_time s = Ok (Stats.average_acknowledgment_time st).
Proof.
  unfold get_alert_statistics.
  destruct (_calculate_avg_ack_time_mean s) as (q & -> & _). cbn. by eexists.
Qed.


(** ** Escalation *)

Lemma set_severity_same (a : Alert) : set_severity (severity a) a = a.
Proof. by destruct a. Qed.

Lemma AlertSeverity_of_value_succ (sev : AlertSeverity) :
  sev ≠ CRITICAL → AlertSeverity_of_value (severity_value sev + 1) = Ok (bump sev).
Proof. by destruct sev. Qed.

Lemma bump_CRITICAL (sev : AlertSeverity) : sev = CRITICAL → bump sev = sev.
Proof. by intros ->. Qed.

Lemma _escalate_alert_run (l : loc) (a : Alert) (n : Z) (s : State) :
  heap s !! l = Some a →
  py_num (escalation_count a) = Some n →
  _escalate_alert l s =
    (Ok tt,
     emits [LogEscalated (alert_id a) (PInt (n + 1))]
       (with_alert_queue (λ q, q ++ [l]) (with_heap (<[l := escalated n a]>) s))).
Proof.
  intros Hl Hn. pose proof (lookup_lt_Some _ _ _ Hl) as Hlt.
  unfold _escalate_alert, assign, deref, escalated, tagged, escalation_count in *.
  munfold. cbn. rewrite Hl. case_bool_decide as Hsev.
  - rewrite (AlertSeverity_of_value_succ _ Hsev). cbn. rewrite Hl. cbn.
    repeat (rewrite list_lookup_insert_eq by (rewrite ?length_insert; done); cbn).
    rewrite (lookup_insert_ne (metadata a)) by done. unfold py_add_int. rewrite Hn. cbn.
    repeat (rewrite list_lookup_insert_eq by (rewrite ?length_insert; done); cbn).
    unfold getitem. rewrite lookup_insert_eq. cbn.
    unfold emits, with_trace, with_alert_queue, with_heap. cbn.
    by rewrite !list_insert_insert_eq.
  - cbn. rewrite Hl. cbn.
    repeat (rewrite list_lookup_insert_eq by (rewrite ?length_insert; done); cbn).
    rewrite (lookup_insert_ne (metadata a)) by done. unfold py_add_int. rewrite Hn. cbn.
    repeat (rewrite list_lookup_insert_eq by (rewrite ?length_insert; done); cbn).
    unfold getitem. rewrite lookup_insert_eq. cbn.
    unfold emits, with_trace, with_alert_queue, with_heap. cbn.
    rewrite (bump_CRITICAL _ Hsev), set_severity_same.
    by rewrite !list_insert_insert_eq.
Qed.

Lemma _escalate_alert_raises (l : loc) (a : Alert) (s : State) :
  heap s !! l = Some a →
  py_num (escalation_count a) = None →
  _escalate_alert l s = (Raise TypeError, with_heap (<[l := tagged a]>) s).
Proof.
  intros Hl Hn. pose proof (lookup_lt_Some _ _ _ Hl) as Hlt.
  unfold _escalate_alert, assign, deref, tagged, escalation_count in *.
  munfold. cbn. rewrite Hl. case_bool_decide as Hsev.
  - rewrite (AlertSeverity_of_value_succ _ Hsev). cbn. rewrite Hl. cbn.
    repeat (rewrite list_lookup_insert_eq by (rewrite ?length_insert; done); cbn).
    rewrite (lookup_insert_ne (metadata a)) by done. unfold py_add_int. rewrite Hn. cbn.
    unfold with_heap. cbn. by rewrite !list_insert_insert_eq.
  - cbn. rewrite Hl. cbn.
    repeat (rewrite list_lookup_insert_eq by (rewrite ?length_insert; done); cbn).
    rewrite (lookup_insert_ne (metadata a)) by done. unfold py_add_int. rewrite Hn. cbn.
    by rewrite (bump_CRITICAL _ Hsev), set_severity_same.
Qed.

Lemma bump_value (sev : AlertSeverity) :
  (sev = CRITICAL → bump sev = CRITICAL) ∧
  (sev ≠ CRITICAL → severity_value (bump sev) = (severity_value sev + 1)%Z).
Proof. by destruct sev. Qed.

Lemma tagged_differs (a : Alert) : differ_in_severity_metadata_only a (tagged a).
Proof. by repeat split. Qed.

Lemma escalated_differs (n : Z) (a : Alert) : differ_in_severity_metadata_only a (escalated n a).
Proof. by repeat split. Qed.

(** The state in which [_escalate_alert] leaves the object store: the alert
    is [a'], and nothing else has changed. *)
Lemma _escalate_alert_heap (l : loc) (a : Alert) (s : State) :
  heap s !! l = Some a →
  ∃ a', heap (_escalate_alert l s).2 = <[l := a']> (heap s) ∧
        severity a' = bump (severity a) ∧
        metadata a' !! "escalated" = Some (PBool true) ∧
        differ_in_severity_metadata_only a a' ∧
        ∀ n, py_num (escalation_count a) = Some n →
             a' = escalated n a ∧ (_escalate_alert l s).1 = Ok tt.
Proof.
  intros Hl. destruct (py_num (escalation_count a)) as [n|] eqn:Hn.
  - rewrite (_escalate_alert_run l a n s Hl Hn). exists (escalated n a). cbn.
    split_and!; [done|done| |apply escalated_differs|by intros ? [= <-]].
    by rewrite lookup_insert_ne, lookup_insert_eq.
  - rewrite (_escalate_alert_raises l a s Hl Hn). exists (tagged a). cbn.
    split_and!; [done|done| |apply tagged_differs|done].
    by rewrite lookup_insert_eq.
Qed.

Lemma _escalate_alert_frame (l : loc) (a : Alert) (s : State) :
  heap s !! l = Some a →
  let s' := (_escalate_alert l s).2 in
  alert_history s' = alert_history s ∧ active_alerts s' = active_alerts s ∧
  recipients s' = recipients s ∧ escalation_config s' = escalation_config s ∧
  (alert_queue s' = alert_queue s ∨ alert_queue s' = alert_queue s ++ [l]).
Proof.
  intros Hl. destruct (py_num (escalation_count a)) as [n|] eqn:Hn.
  - rewrite (_escalate_alert_run l a n s Hl Hn). cbn. split_and!; auto.
  - rewrite (_escalate_alert_raises l a s Hl Hn). cbn. split_and!; auto.
Qed.

(** C5: escalating an alert at [CRITICAL] leaves it at [CRITICAL], escalating
    one below raises its severity by exactly one level, so the severity never
    goes down; in both cases the escalation count in the metadata, read as 0
    when absent, goes up by one. *)
Theorem escalate_moves_up_and_saturates (l : loc) (a : Alert) (s : State) :
  heap s !! l = Some a →
  ∃ a', heap (_escalate_alert l s).2 !! l = Some a' ∧
    (severity a = CRITICAL → severity a' = CRITICAL) ∧
    (severity a ≠ CRITICAL →
       severity_value (severity a') = (severity_value (severity a) + 1)%Z) ∧
    (severity_value (severity a) ≤ severity_value (severity a') ≤ 4)%Z ∧
    (∀ n, py_num (escalation_count a) = Some n →
       (_escalate_alert l s).1 = Ok tt ∧
       metadata a' !! "escalation_count" = Some (PInt (n + 1))).
Proof.
  intros Hl. destruct (_escalate_alert_heap l a s Hl) as (a' & Hh & Hsev & _ & _ & Hn).
  exists a'. rewrite Hh, list_lookup_insert_eq by eauto using lookup_lt_Some.
  rewrite Hsev. destruct (bump_value (severity a)) as [Hc Hnc].
  split_and!; [done|by intros ->|done| | | ].
  - destruct (severity a); cbn; lia.
  - destruct (severity a); cbn; lia.
  - intros n Hcount. destruct (Hn n Hcount) as [-> Hok]. split; [done|].
    unfold escalated. cbn. by rewrite lookup_insert_eq.
Qed.

(** C10: [_escalate_alert] changes the severity and the metadata of the
    alert it is given and nothing else of the object store, appends nothing to
    the history and leaves the active-alert dict as it is, so the
    [total_alerts] and [active_alerts] statistics are the same before and
    after; with a numeric escalation count it returns and has put the alert
    on the delivery queue. *)
Theorem escalate_frame (l : loc) (a : Alert) (s : State) :
  heap s !! l = Some a →
  let s' := (_escalate_alert l s).2 in
  alert_history s' = alert_history s ∧
  active_alerts s' = active_alerts s ∧
  (∃ a', heap s' = <[l := a']> (heap s) ∧ differ_in_severity_metadata_only a a') ∧
  (∀ l', l' ≠ l → heap s' !! l' = heap s !! l') ∧
  (∃ st st', get_alert_statistics s = Ok st ∧ get_alert_statistics s' = Ok st' ∧
     Stats.total_alerts st' = Stats.total_alerts st ∧
     Stats.active_alerts st' = Stats.active_alerts st) ∧
  (∀ n, py_num (escalation_count a) = Some n →
     (_escalate_alert l s).1 = Ok tt ∧ alert_queue s' = alert_queue s ++ [l]).
Proof.
  intros Hl s'. subst s'.
  destruct (_escalate_alert_frame l a s Hl) as (Hhist & Hact & _ & _ & _).
  destruct (_escalate_alert_heap l a s Hl) as (a' & Hh & _ & _ & Hd & _).
  split_and!; [done|done|by exists a'| | | ].
  - intros l' Hne. rewrite Hh. by apply list_lookup_insert_ne.
  - destruct (get_alert_statistics_returns s) as (st & Hst & Ht & Ha & _).
    destruct (get_alert_statistics_returns (_escalate_alert l s).2)
      as (st' & Hst' & Ht' & Ha' & _).
    exists st, st'. split_and!; [done|done| | ]; congruence.
  - intros n Hn. by rewrite (_escalate_alert_run l a n s Hl Hn).
Qed.

(** ** The escalation timer *)

Lemma _check_escalation_inactive (id : string) (now : datetime) (s : State) :
  active_alerts s !! id = None → _check_escalation id now s = (Ok tt, s).
Proof. intros Hid. unfold _check_escalation. munfold. cbn. by rewrite Hid. Qed.

Lemma _check_escalation_early (id : string) (now : datetime) (l : loc) (a : Alert) (s : State) :
  active_alerts s !! id = Some l →
  heap s !! l = Some a →
  (now - timestamp a < timeout (escalation_config s))%Z →
  _check_escalation id now s = (Ok tt, s).
Proof.
  intros Hid Hl Hearly. unfold _check_escalation, deref. munfold. cbn.
  rewrite Hid, Hl. by rewrite (proj2 (Z.leb_gt _ _) Hearly).
Qed.

Lemma _check_escalation_due (id : string) (now : datetime) (l : loc) (a : Alert) (s : State) :
  active_alerts s !! id = Some l →
  heap s !! l = Some a →
  (timeout (escalation_config s) ≤ now - timestamp a)%Z →
  _check_escalation id now s = _escalate_alert l (emits [LogEscalating id] s).
Proof.
  intros Hid Hl Hdue. unfold _check_escalation, deref. munfold. cbn.
  rewrite Hid, Hl. by rewrite (proj2 (Z.leb_le _ _) Hdue).
Qed.

(** The timer callback running one minute after the creation time of the
    alert, with the timeout at five minutes, finds the alert active and leaves
    it as it is. *)
Lemma fire_before_timeout_does_not_escalate :
  ¬ fire_escalates_active "TEST-001" (timedelta_minutes 1) test_alert_sent.
Proof.
  unfold fire_escalates_active.
  assert (active_alerts test_alert_sent !! "TEST-001" = Some 0) as Hid by by vm_compute.
  assert (heap test_alert_sent !! 0 = Some test_alert) as Hobj by by vm_compute.
  rewrite Hid. intros Hclaim.
  destruct (Hclaim test_alert Hobj 0%Z eq_refl) as (s' & a' & Hrun & Hl & _ & Hsev & _).
  rewrite (_check_escalation_early "TEST-001" _ 0 test_alert) in Hrun;
    [|done|done|by vm_compute].
  injection Hrun as <-. rewrite Hobj in Hl. injection Hl as <-.
  by specialize (Hsev ltac:(done)).
Qed.

(** C1 (amended): when the escalation timer fires for an id that is not in
    the active set, nothing changes.  For an id in the active set the callback
    compares the time since the alert's timestamp with the configured timeout:
    when less has passed, nothing changes; when at least the timeout has
    passed, the severity goes up one level (staying at [CRITICAL]), the
    metadata gets [escalated = True] and an escalation count one higher, and
    the alert is appended to the delivery queue.  This holds for every count
    [n] and every value of [max_escalations], which the callback never
    reads. *)
Theorem fire_escalates_after_timeout (id : string) (now : datetime) (s : State) :
  match active_alerts s !! id with
  | None => _check_escalation id now s = (Ok tt, s)
  | Some l => ∀ a, heap s !! l = Some a →
      ((now - timestamp a < timeout (escalation_config s))%Z →
         _check_escalation id now s = (Ok tt, s)) ∧
      ((timeout (escalation_config s) ≤ now - timestamp a)%Z →
         escalates id now l a s)
  end.
Proof.
  destruct (active_alerts s !! id) as [l|] eqn:Hid.
  2:{ by apply _check_escalation_inactive. }
  intros a Hl. split.
  { by apply (_check_escalation_early id now l a s). }
  intros Hdue n Hn.
  rewrite (_check_escalation_due id now l a s Hid Hl Hdue).
  rewrite (_escalate_alert_run l a n (emits [LogEscalating id] s) Hl Hn).
  eexists _, (escalated n a). split; [done|]. cbn.
  rewrite list_lookup_insert_eq by eauto using lookup_lt_Some.
  destruct (bump_value (severity a)) as [Hc Hnc].
  split_and!; [done|done|done| | |done].
  - by rewrite lookup_insert_ne, lookup_insert_eq.
  - by rewrite lookup_insert_eq.
Qed.

(** ** Submission and acknowledgement *)

Lemma send_alert_run (l : loc) (a : Alert) (s : State) :
  heap s !! l = Some a →
  send_alert l s =
    (Ok tt,
     with_alert_history (λ h, h ++ [l])
       (with_alert_queue (λ q, q ++ [l])
          (with_active_alerts (<[alert_id a := l]>)
             (emits [LogSending (title a) (severity a)] s)))).
Proof. intros Hl. unfold send_alert, deref. munfold. cbn. by rewrite Hl. Qed.

Lemma send_alert_dangling (l : loc) (s : State) :
  heap s !! l = None → send_alert l s = (Raise InvalidReference, s).
Proof. intros Hl. unfold send_alert, deref. munfold. cbn. by rewrite Hl. Qed.

Lemma acknowledge_alert_inactive (id by_ : string) (now : datetime) (s : State) :
  active_alerts s !! id = None → acknowledge_alert id by_ now s = (Ok tt, s).
Proof. intros Hid. unfold acknowledge_alert. munfold. cbn. by rewrite Hid. Qed.

Lemma acknowledge_alert_run (id by_ : string) (now : datetime) (l : loc) (a : Alert)
    (s : State) :
  active_alerts s !! id = Some l →
  heap s !! l = Some a →
  acknowledge_alert id by_ now s =
    (Ok tt,
     with_active_alerts (delete id)
       (emits [LogAcknowledged id by_] (with_heap (<[l := acked by_ now a]>) s))).
Proof.
  intros Hid Hl. pose proof (lookup_lt_Some _ _ _ Hl) as Hlt.
  unfold acknowledge_alert, assign, deref, acked. munfold. cbn. rewrite Hid, Hl. cbn.
  repeat (rewrite list_lookup_insert_eq by (rewrite ?length_insert; done); cbn).
  unfold with_active_alerts, emits, with_trace, with_heap. cbn.
  by rewrite !list_insert_insert_eq.
Qed.

Lemma _process_alerts_empty (now : datetime) (s : State) :
  alert_queue s = [] → _process_alerts now s = (Ok tt, s).
Proof. intros Hq. unfold _process_alerts. munfold. cbn. by rewrite Hq. Qed.

Lemma _process_alerts_run (now : datetime) (l : loc) (rest : list loc) (a : Alert) (s : State) :
  alert_queue s = l :: rest →
  heap s !! l = Some a →
  ∃ evs, _process_alerts now s = (Ok tt, emits evs (with_alert_queue (λ _, rest) s)).
Proof.
  intros Hq Hl. unfold _process_alerts. munfold. cbn. rewrite Hq. cbn.
  rewrite (_deliver_alert_run l a now (with_alert_queue (λ _, rest) s) Hl). cbn.
  destruct (delivery _ now l a (recipients s)) as [evs [[]|e]]; cbn.
  - destruct (enabled (escalation_config s)); cbn.
    + unfold deref. cbn. rewrite Hl. eexists. by rewrite <- emits_app.
    + by eexists.
  - eexists. by rewrite <- emits_app.
Qed.

(** C6: acknowledging an id that is not in the active set returns normally
    and changes nothing: the state after the call is the state before it,
    active set, history, stored alerts and trace included, and so are the
    statistics. *)
Theorem acknowledge_inactive_is_noop (id by_ : string) (now : datetime) (s : State) :
  active_alerts s !! id = None →
  acknowledge_alert id by_ now s = (Ok tt, s) ∧
  get_alert_statistics (acknowledge_alert id by_ now s).2 = get_alert_statistics s.
Proof. intros Hid. by rewrite (acknowledge_alert_inactive id by_ now s Hid). Qed.

(** ** Well-formed states *)

Lemma wf_init : wf AlertManager_init.
Proof.
  split; cbn.
  - intros id l Hl. by rewrite lookup_empty in Hl.
  - by intros l ?%elem_of_nil.
  - by intros l ?%elem_of_nil.
Qed.

Lemma wf_emits (evs : list event) (s : State) : wf s → wf (emits evs s).
Proof. intros [H1 H2 H3]. by split. Qed.

Lemma lookup_insert_alert_id (h : list Alert) (l l0 : loc) (a a' a0 : Alert) :
  h !! l = Some a → alert_id a' = alert_id a → h !! l0 = Some a0 →
  ∃ a1, <[l := a']> h !! l0 = Some a1 ∧ alert_id a1 = alert_id a0.
Proof.
  intros Hl Hid Hl0. destruct (decide (l = l0)) as [->|Hne].
  - rewrite list_lookup_insert_eq by eauto using lookup_lt_Some.
    exists a'. split; [done|]. congruence.
  - rewrite list_lookup_insert_ne by done. eauto.
Qed.

(** Replacing an object by one with the same id keeps a state well formed. *)
Lemma wf_update (l : loc) (a a' : Alert) (s : State) :
  heap s !! l = Some a → alert_id a' = alert_id a →
  wf s → wf (with_heap (<[l := a']>) s).
Proof.
  intros Hl Hid [H1 H2 H3]. split; cbn.
  - intros id l0 Hact. destruct (H1 id l0 Hact) as [(a0 & Ha0 & Hid0) Hin].
    split; [|done].
    destruct (lookup_insert_alert_id _ l l0 a a' a0 Hl Hid Ha0) as (a1 & ? & ?).
    exists a1. split; [done|congruence].
  - intros l0 Hin. rewrite length_insert. auto.
  - intros l0 Hin. rewrite length_insert. auto.
Qed.

Lemma wf_escalate (l : loc) (a : Alert) (s : State) :
  heap s !! l = Some a → wf s → wf (_escalate_alert l s).2.
Proof.
  intros Hl Hwf. destruct (py_num (escalation_count a)) as [n|] eqn:Hn.
  - rewrite (_escalate_alert_run l a n s Hl Hn). cbn. apply wf_emits.
    destruct (wf_update l a (escalated n a) s Hl eq_refl Hwf) as [H1 H2 H3].
    split; [done|done|]. cbn in *. intros l0 [Hin| ->%list_elem_of_singleton]%elem_of_app.
    + by apply H3.
    + rewrite length_insert. eauto using lookup_lt_Some.
  - rewrite (_escalate_alert_raises l a s Hl Hn). cbn.
    by apply (wf_update l a (tagged a) s Hl).
Qed.

Lemma step_wf (s : State) (o : op) : wf s → wf (step s o).
Proof.
  intros Hwf. unfold step. destruct o as [a|r|l|id by_ now|now|id now]; cbn.
  - (* Construct *)
    change (wf (with_heap (λ h, h ++ [a]) s)).
    destruct Hwf as [H1 H2 H3]. split; cbn.
    + intros id l Hact. destruct (H1 id l Hact) as [(a0 & Ha0 & Hid0) Hin].
      split; [|done]. exists a0. split; [|done].
      rewrite lookup_app_l by eauto using lookup_lt_Some. done.
    + intros l Hin. rewrite length_app. specialize (H2 l Hin). lia.
    + intros l Hin. rewrite length_app. specialize (H3 l Hin). lia.
  - (* AddRecipient *)
    change (wf (emits [LogAddedRecipient (name r)] (with_recipients (λ rs, rs ++ [r]) s))).
    destruct Hwf as [H1 H2 H3]. by split.
  - (* SendAlert *)
    destruct (heap s !! l) as [a|] eqn:Hl.
    2:{ by rewrite (send_alert_dangling l s Hl). }
    rewrite (send_alert_run l a s Hl). destruct Hwf as [H1 H2 H3]. split; cbn.
    + intros id l0 [[<- <-]|[Hne Hact]]%lookup_insert_Some.
      * split; [by exists a|]. apply elem_of_app. right. by apply list_elem_of_singleton.
      * destruct (H1 id l0 Hact) as [? Hin]. split; [done|].
        apply elem_of_app. by left.
    + intros l0 [Hin| ->%list_elem_of_singleton]%elem_of_app;
        eauto using lookup_lt_Some.
    + intros l0 [Hin| ->%list_elem_of_singleton]%elem_of_app;
        eauto using lookup_lt_Some.
  - (* Acknowledge *)
    destruct (active_alerts s !! id) as [l|] eqn:Hid.
    2:{ by rewrite (acknowledge_alert_inactive id by_ now s Hid). }
    destruct (wf_active s Hwf id l Hid) as [(a & Hl & Haid) Hin].
    rewrite (acknowledge_alert_run id by_ now l a s Hid Hl). cbn.
    destruct (wf_update l a (acked by_ now a) s Hl eq_refl Hwf) as [H1 H2 H3].
    split; [|done|done]. cbn in *.
    intros id0 l0 [Hne Hact]%lookup_delete_Some. by apply H1.
  - (* ProcessNext *)
    destruct (alert_queue s) as [|l rest] eqn:Hq.
    { by rewrite (_process_alerts_empty now s Hq). }
    assert (l < length (heap s)) as [a Hl]%lookup_lt_is_Some.
    { apply (wf_queue s Hwf). rewrite Hq. by left. }
    destruct (_process_alerts_run now l rest a s Hq Hl) as [evs ->]. cbn.
    apply wf_emits. destruct Hwf as [H1 H2 H3]. split; [done|done|]. cbn.
    intros l0 Hin. apply H3. rewrite Hq. by right.
  - (* TimerFires *)
    destruct (active_alerts s !! id) as [l|] eqn:Hid.
    2:{ by rewrite (_check_escalation_inactive id now s Hid). }
    destruct (wf_active s Hwf id l Hid) as [(a & Hl & Haid) Hin].
    destruct (Z.lt_ge_cases (now - timestamp a) (timeout (escalation_config s)))
      as [Hearly|Hdue].
    { by rewrite (_check_escalation_early id now l a s Hid Hl Hearly). }
    rewrite (_check_escalation_due id now l a s Hid Hl Hdue).
    apply (wf_escalate l a); [done|]. by apply wf_emits.
Qed.

(** Every state a manager can be in is well formed; in particular no
    operation meets a reference outside the object store. *)
Lemma run_wf (ops : list op) (s : State) : wf s → wf (run ops s).
Proof.
  revert s. induction ops as [|o ops IH]; intros s Hwf; cbn; [done|].
  apply IH. by apply step_wf.
Qed.

Lemma reachable_wf (s : State) : reachable s → wf s.
Proof. intros [ops ->]. apply run_wf, wf_init. Qed.

(** ** No active alert is acknowledged *)

Lemma step_active_unacknowledged (s : State) (o : op) :
  wf s → active_unacknowledged s → sends_unacknowledged_alert o s = true →
  active_unacknowledged (step s o).
Proof.
  intros Hwf Hun Hsend. unfold step.
  destruct o as [a|r|l|id by_ now|now|id now]; cbn.
  - (* Construct *)
    change (active_unacknowledged (with_heap (λ h, h ++ [a]) s)).
    intros id l a1 Hact Hl. cbn in *.
    destruct (wf_active s Hwf id l Hact) as [(a0 & Ha0 & _) _].
    rewrite lookup_app_l in Hl by eauto using lookup_lt_Some. eauto.
  - (* AddRecipient *)
    done.
  - (* SendAlert *)
    cbn in Hsend. destruct (heap s !! l) as [a|] eqn:Hl.
    2:{ by rewrite (send_alert_dangling l s Hl). }
    rewrite (send_alert_run l a s Hl). unfold active_unacknowledged. cbn.
    intros id l0 a1 [[<- <-]|[Hne Hact]]%lookup_insert_Some Hl0; cbn in *.
    + rewrite Hl in Hl0. injection Hl0 as <-. by apply negb_true_iff.
    + eauto.
  - (* Acknowledge *)
    destruct (active_alerts s !! id) as [l|] eqn:Hid.
    2:{ by rewrite (acknowledge_alert_inactive id by_ now s Hid). }
    destruct (wf_active s Hwf id l Hid) as [(a & Hl & Haid) _].
    rewrite (acknowledge_alert_run id by_ now l a s Hid Hl).
    unfold active_unacknowledged. cbn.
    intros id0 l0 a1 [Hne Hact]%lookup_delete_Some Hl0. cbn in *.
    destruct (wf_active s Hwf id0 l0 Hact) as [(a0 & Ha0 & Haid0) _].
    rewrite list_lookup_insert_ne in Hl0 by (intros ->; congruence).
    eauto.
  - (* ProcessNext *)
    destruct (alert_queue s) as [|l rest] eqn:Hq.
    { by rewrite (_process_alerts_empty now s Hq). }
    assert (l < length (heap s)) as [a Hl]%lookup_lt_is_Some.
    { apply (wf_queue s Hwf). rewrite Hq. by left. }
    by destruct (_process_alerts_run now l rest a s Hq Hl) as [evs ->].
  - (* TimerFires *)
    destruct (active_alerts s !! id) as [l|] eqn:Hid.
    2:{ by rewrite (_check_escalation_inactive id now s Hid). }
    destruct (wf_active s Hwf id l Hid) as [(a & Hl & Haid) _].
    destruct (Z.lt_ge_cases (now - timestamp a) (timeout (escalation_config s)))
      as [Hearly|Hdue].
    { by rewrite (_check_escalation_early id now l a s Hid Hl Hearly). }
    rewrite (_check_escalation_due id now l a s Hid Hl Hdue).
    destruct (_escalate_alert_heap l a (emits [LogEscalating id] s) Hl)
      as (a' & Hh & _ & _ & Hd & _).
    destruct (_escalate_alert_frame l a (emits [LogEscalating id] s) Hl)
      as (_ & Hact' & _).
    intros id0 l0 a1 Hact Hl0. rewrite Hact' in Hact. rewrite Hh in Hl0. cbn in *.
    destruct (decide (l = l0)) as [<-|Hne].
    + rewrite list_lookup_insert_eq in Hl0 by eauto using lookup_lt_Some.
      injection Hl0 as <-. destruct Hd as (_&_&_&_&_&_&_& -> &_). eauto.
    + rewrite list_lookup_insert_ne in Hl0 by done. eauto.
Qed.

Lemma run_active_unacknowledged (ops : list op) (s : State) :
  wf s → active_unacknowledged s → sends_unacknowledged ops s = true →
  active_unacknowledged (run ops s).
Proof.
  revert s. induction ops as [|o ops IH]; intros s Hwf Hun Hsend; cbn in *; [done|].
  apply andb_true_iff in Hsend as [Ho Hrest].
  apply IH; [by apply step_wf|by apply step_active_unacknowledged|done].
Qed.

(** An alert that is acknowledged and then submitted again is active and
    acknowledged at once. *)
Lemma resubmitted_alert_is_active_and_acknowledged :
  ¬ active_unacknowledged
      (run [Construct test_alert; SendAlert 0;
            Acknowledge "TEST-001" "operator" (timedelta_minutes 2); SendAlert 0]
         AlertManager_init).
Proof.
  intros Hun.
  specialize (Hun "TEST-001" 0 (acked "operator" (timedelta_minutes 2) test_alert)).
  by specialize (Hun ltac:(by vm_compute) ltac:(by vm_compute)).
Qed.

(** C3 (amended): in every state reached by a run in which [send_alert] is
    only given alerts that are not acknowledged at the time of the call, every
    alert in the active set has [acknowledged == False].  In such a state
    [acknowledge_alert] on an active id sets [acknowledged], [acknowledged_by]
    and [acknowledged_at] and deletes the entry in the same call: afterwards
    the alert is under no key of the active set, and the active set still
    holds unacknowledged alerts only. *)
Theorem active_alerts_are_unacknowledged (ops : list op) :
  sends_unacknowledged ops AlertManager_init = true →
  let s := run ops AlertManager_init in
  active_unacknowledged s ∧
  ∀ id by_ now l, active_alerts s !! id = Some l →
    let s' := (acknowledge_alert id by_ now s).2 in
    (∃ a', heap s' !! l = Some a' ∧ acknowledged a' = true ∧
           acknowledged_by a' = Some by_ ∧ acknowledged_at a' = Some now) ∧
    (∀ k, active_alerts s' !! k ≠ Some l) ∧
    active_unacknowledged s'.
Proof.
  intros Hsend s.
  assert (wf s) as Hwf by apply run_wf, wf_init.
  assert (active_unacknowledged s) as Hun.
  { apply run_active_unacknowledged; [apply wf_init| |done].
    intros id l a Hact. cbn in Hact. by rewrite lookup_empty in Hact. }
  split; [done|]. intros id by_ now l Hid s'.
  destruct (wf_active s Hwf id l Hid) as [(a & Hl & Haid) _].
  split_and!.
  - subst s'. rewrite (acknowledge_alert_run id by_ now l a s Hid Hl). cbn.
    rewrite list_lookup_insert_eq by eauto using lookup_lt_Some.
    by exists (acked by_ now a).
  - subst s'. rewrite (acknowledge_alert_run id by_ now l a s Hid Hl). cbn.
    intros k [Hne Hk]%lookup_delete_Some.
    destruct (wf_active s Hwf k l Hk) as [(a0 & Ha0 & Haid0) _]. congruence.
  - apply (step_active_unacknowledged s (Acknowledge id by_ now)); done.
Qed.

(** ** Submission followed by acknowledgement *)

Lemma occurrences_app (l : loc) (h1 h2 : list loc) :
  occurrences l (h1 ++ h2) = occurrences l h1 + occurrences l h2.
Proof. unfold occurrences. by rewrite filter_app, length_app. Qed.

Lemma occurrences_absent (l : loc) (h : list loc) : l ∉ h → occurrences l h = 0.
Proof.
  unfold occurrences. induction h as [|x h IH]; [done|].
  intros [Hne Hin]%not_elem_of_cons. rewrite filter_cons.
  destruct (decide (x = l)); [congruence|]. by apply IH.
Qed.

Lemma occurrences_singleton (l l' : loc) :
  occurrences l [l'] = if decide (l' = l) then 1 else 0.
Proof. unfold occurrences. rewrite filter_cons. by destruct (decide (l' = l)). Qed.

Lemma step_filed (id : string) (l : loc) (s : State) (o : op) :
  wf s → filed id l s → leaves_alone id o s = true → filed id l (step s o).
Proof.
  intros Hwf [Hid Hocc] Hquiet. unfold step.
  destruct (wf_active s Hwf id l Hid) as [(a & Hl & Haid) _].
  destruct o as [a0|r|l'|id' by_ now|now|id' now]; cbn.
  - (* Construct *) done.
  - (* AddRecipient *) done.
  - (* SendAlert *)
    cbn in Hquiet. destruct (heap s !! l') as [a'|] eqn:Hl'.
    2:{ by rewrite (send_alert_dangling l' s Hl'). }
    apply negb_true_iff, String.eqb_neq in Hquiet.
    rewrite (send_alert_run l' a' s Hl'). unfold filed. cbn -[occurrences]. split.
    + rewrite lookup_insert_ne; done.
    + rewrite occurrences_app, occurrences_singleton, Hocc.
      destruct (decide (l' = l)) as [->|]; [congruence|done].
  - (* Acknowledge *)
    cbn in Hquiet. apply negb_true_iff, String.eqb_neq in Hquiet.
    destruct (active_alerts s !! id') as [l'|] eqn:Hid'.
    2:{ by rewrite (acknowledge_alert_inactive id' by_ now s Hid'). }
    destruct (wf_active s Hwf id' l' Hid') as [(a' & Hl' & _) _].
    rewrite (acknowledge_alert_run id' by_ now l' a' s Hid' Hl'). unfold filed. cbn.
    by rewrite lookup_delete_ne.
  - (* ProcessNext *)
    destruct (alert_queue s) as [|l' rest] eqn:Hq.
    { by rewrite (_process_alerts_empty now s Hq). }
    assert (l' < length (heap s)) as [a' Hl']%lookup_lt_is_Some.
    { apply (wf_queue s Hwf). rewrite Hq. by left. }
    by destruct (_process_alerts_run now l' rest a' s Hq Hl') as [evs ->].
  - (* TimerFires *)
    destruct (active_alerts s !! id') as [l'|] eqn:Hid'.
    2:{ by rewrite (_check_escalation_inactive id' now s Hid'). }
    destruct (wf_active s Hwf id' l' Hid') as [(a' & Hl' & _) _].
    destruct (Z.lt_ge_cases (now - timestamp a') (timeout (escalation_config s)))
      as [Hearly|Hdue].
    { by rewrite (_check_escalation_early id' now l' a' s Hid' Hl' Hearly). }
    rewrite (_check_escalation_due id' now l' a' s Hid' Hl' Hdue).
    destruct (_escalate_alert_frame l' a' (emits [LogEscalating id'] s) Hl')
      as (Hhist & Hact & _).
    unfold filed. by rewrite Hhist, Hact.
Qed.

Lemma run_filed (id : string) (l : loc) (ops : list op) (s : State) :
  wf s → filed id l s → all_leave_alone id ops s = true → filed id l (run ops s).
Proof.
  revert s. induction ops as [|o ops IH]; intros s Hwf Hfiled Hquiet; cbn in *; [done|].
  apply andb_true_iff in Hquiet as [Ho Hrest].
  apply IH; [by apply step_wf|by apply step_filed|done].
Qed.

(** C4: in any state of the manager, [send_alert] of an alert whose id was
    never submitted returns with the alert in the active set under its own id
    and under no other key, and once in the history.  After operations that
    neither acknowledge this id nor submit another alert with it (none at
    all, for an acknowledgement that follows at once), [acknowledge_alert] of
    the id by [by_] returns with the alert under no key of the active set,
    still once in the history, and with [acknowledged == True],
    [acknowledged_by == by_] and [acknowledged_at] set to the time of the
    call. *)
Theorem send_then_acknowledge (ops mid : list op) (l : loc) (a : Alert) (by_ : string)
    (now : datetime) :
  let s := run ops AlertManager_init in
  heap s !! l = Some a →
  never_submitted (alert_id a) s →
  let s1 := (send_alert l s).2 in
  ((send_alert l s).1 = Ok tt ∧
   heap s1 !! l = Some a ∧
   (∀ k, active_alerts s1 !! k = Some l ↔ k = alert_id a) ∧
   occurrences l (alert_history s1) = 1) ∧
  (all_leave_alone (alert_id a) mid s1 = true →
   let s2 := run mid s1 in
   let s3 := (acknowledge_alert (alert_id a) by_ now s2).2 in
   (acknowledge_alert (alert_id a) by_ now s2).1 = Ok tt ∧
   (∀ k, active_alerts s3 !! k ≠ Some l) ∧
   occurrences l (alert_history s3) = 1 ∧
   ∃ a', heap s3 !! l = Some a' ∧ alert_id a' = alert_id a ∧
         acknowledged a' = true ∧ acknowledged_by a' = Some by_ ∧
         acknowledged_at a' = Some now).
Proof.
  intros s Hl Hnew s1.
  assert (wf s) as Hwf by apply run_wf, wf_init.
  assert (wf s1) as Hwf1 by apply (step_wf s (SendAlert l) Hwf).
  assert (l ∉ alert_history s) as Hfresh.
  { intros Hin. by apply (Hnew l a Hin Hl). }
  assert (filed (alert_id a) l s1) as Hfiled1.
  { subst s1. rewrite (send_alert_run l a s Hl). unfold filed. cbn -[occurrences].
    rewrite lookup_insert_eq, occurrences_app, occurrences_singleton.
    rewrite (occurrences_absent _ _ Hfresh). by rewrite decide_True. }
  split.
  - destruct Hfiled1 as [Hact1 Hocc1]. split_and!; [| | |done].
    + by rewrite (send_alert_run l a s Hl).
    + subst s1. by rewrite (send_alert_run l a s Hl).
    + intros k. split; [|by intros ->].
      intros Hk. destruct (wf_active s1 Hwf1 k l Hk) as [(a1 & Hl1 & <-) _].
      subst s1. rewrite (send_alert_run l a s Hl) in Hl1. cbn in Hl1. congruence.
  - intros Hquiet s2 s3.
    assert (wf s2) as Hwf2 by by apply run_wf.
    destruct (run_filed (alert_id a) l mid s1 Hwf1 Hfiled1 Hquiet) as [Hact2 Hocc2].
    fold s2 in Hact2, Hocc2.
    destruct (wf_active s2 Hwf2 _ l Hact2) as [(a2 & Hl2 & Haid2) _].
    subst s3. rewrite (acknowledge_alert_run _ by_ now l a2 s2 Hact2 Hl2). cbn -[occurrences].
    split_and!; [done| |done|].
    + intros k [Hne Hk]%lookup_delete_Some.
      destruct (wf_active s2 Hwf2 k l Hk) as [(a0 & Ha0 & Haid0) _]. congruence.
    + exists (acked by_ now a2).
      by rewrite list_lookup_insert_eq by eauto using lookup_lt_Some.
Qed.

(** ** The properties at concrete inputs *)

Example high_alert_delivered_in_hours :
  trace (_deliver_alert 0 (timedelta_minutes 600)
           (run [AddRecipient day_recipient; Construct test_alert] AlertManager_init)).2 =
  [LogAddedRecipient "Test User"; Invoked CONSOLE 0 day_recipient].
Proof. reflexivity. Qed.

Example failures_do_not_stop_delivery :
  _deliver_alert 0 (timedelta_minutes 600) faulty_senders =
  (Ok tt,
   emits [Invoked SMS 0 on_call;
          LogSendFailed SMS "On Call" (SenderFailure "gateway down");
          LogNoHandler CONSOLE;
          Invoked EMAIL 0 on_call;
          LogNoHandler CONSOLE] faulty_senders).
Proof. reflexivity. Qed.

Example low_alert_not_delivered :
  trace (_deliver_alert 0 (timedelta_minutes 600)
           (run [AddRecipient day_recipient; Construct (set_severity LOW test_alert)]
              AlertManager_init)).2 =
  [LogAddedRecipient "Test User"].
Proof. reflexivity. Qed.

Lemma fire_escalates_after_timeout_witness :
  ∃ s' a',
    _check_escalation "TEST-001" (timedelta_minutes 6) test_alert_sent = (Ok tt, s') ∧
    heap s' !! 0 = Some a' ∧
    severity_value (severity a') = 4%Z ∧
    metadata a' !! "escalated" = Some (PBool true) ∧
    metadata a' !! "escalation_count" = Some (PInt 1) ∧
    alert_queue s' = [0; 0].
Proof.
  pose proof (fire_escalates_after_timeout "TEST-001" (timedelta_minutes 6) test_alert_sent)
    as Hfire.
  change (active_alerts test_alert_sent !! "TEST-001") with (Some 0) in Hfire.
  destruct (Hfire test_alert eq_refl) as [_ Hdue].
  destruct (Hdue ltac:(by vm_compute) 0%Z eq_refl)
    as (s' & a' & Hrun & Hl & _ & Hsev & Htag & Hcount & Hq).
  exists s', a'. repeat split; try assumption.
  apply Hsev. discriminate.
Defined.

Lemma should_receive_alert_threshold_and_window_witness :
  heap faulty_senders !! 0 = Some test_alert ∧
  (should_receive_alert day_recipient HIGH (timedelta_minutes 600) = Ok true ↔
     (severity_value MEDIUM ≤ severity_value HIGH)%Z ∧
     (no_window day_recipient ∨ within_window day_recipient "10:00")) ∧
  ∃ evs,
    trace (_deliver_alert 0 (timedelta_minutes 600) faulty_senders).2 =
      trace faulty_senders ++ evs ∧
    ∀ ch l' r', Invoked ch l' r' ∈ evs →
      ¬ (severity_value (severity test_alert) < severity_value (severity_threshold r'))%Z.
Proof.
  pose proof (should_receive_alert_threshold_and_window day_recipient HIGH
                (timedelta_minutes 600) 0 test_alert faulty_senders) as [Hiff Hdeliver].
  split; [reflexivity|]. split; [exact Hiff|]. apply Hdeliver. reflexivity.
Defined.

Lemma active_alerts_are_unacknowledged_witness :
  sends_unacknowledged
    [Construct test_alert; SendAlert 0; TimerFires "TEST-001" (timedelta_minutes 6);
     ProcessNext (timedelta_minutes 6)] AlertManager_init = true ∧
  active_unacknowledged
    (run [Construct test_alert; SendAlert 0; TimerFires "TEST-001" (timedelta_minutes 6);
          ProcessNext (timedelta_minutes 6)] AlertManager_init).
Proof.
  split; [reflexivity|].
  apply (active_alerts_are_unacknowledged
           [Construct test_alert; SendAlert 0; TimerFires "TEST-001" (timedelta_minutes 6);
            ProcessNext (timedelta_minutes 6)]).
  reflexivity.
Defined.

Lemma send_then_acknowledge_witness :
  let s := run [Construct test_alert] AlertManager_init in
  let s1 := (send_alert 0 s).2 in
  let mid := [ProcessNext (timedelta_minutes 1); TimerFires "TEST-001" (timedelta_minutes 6)] in
  let s3 := (acknowledge_alert "TEST-001" "operator" (timedelta_minutes 7) (run mid s1)).2 in
  heap s !! 0 = Some test_alert ∧
  all_leave_alone "TEST-001" mid s1 = true ∧
  (∀ k, active_alerts s1 !! k = Some 0 ↔ k = "TEST-001") ∧
  occurrences 0 (alert_history s1) = 1 ∧
  (∀ k, active_alerts s3 !! k ≠ Some 0) ∧
  occurrences 0 (alert_history s3) = 1 ∧
  ∃ a', heap s3 !! 0 = Some a' ∧ acknowledged a' = true ∧
        acknowledged_by a' = Some "operator" ∧
        acknowledged_at a' = Some (timedelta_minutes 7).
Proof.
  intros s s1 mid s3.
  assert (never_submitted (alert_id test_alert) s) as Hnew.
  { intros l a Hin. cbn in Hin. by apply elem_of_nil in Hin. }
  destruct (send_then_acknowledge [Construct test_alert] mid 0 test_alert "operator"
              (timedelta_minutes 7) eq_refl Hnew)
    as [(_ & _ & Hkeys & Hocc) Hack].
  destruct (Hack eq_refl) as (_ & Hgone & Hocc3 & a' & Hl & _ & Hflag & Hby & Hat).
  repeat split; try assumption; try reflexivity.
  - apply Hkeys.
  - apply Hkeys.
  - exists a'. repeat split; assumption.
Defined.

Lemma escalate_moves_up_and_saturates_witness :
  heap test_alert_sent !! 0 = Some test_alert ∧
  ∃ a', heap (_escalate_alert 0 test_alert_sent).2 !! 0 = Some a' ∧
        severity_value (severity a') = 4%Z ∧
        metadata a' !! "escalation_count" = Some (PInt 1).
Proof.
  split; [reflexivity|].
  destruct (escalate_moves_up_and_saturates 0 test_alert test_alert_sent eq_refl)
    as (a' & Hl & _ & Hup & _ & Hcount).
  exists a'. repeat split.
  - exact Hl.
  - apply Hup. discriminate.
  - apply (Hcount 0%Z eq_refl).
Defined.

Lemma acknowledge_inactive_is_noop_witness :
  active_alerts test_alert_sent !! "UNKNOWN" = None ∧
  acknowledge_alert "UNKNOWN" "operator" (timedelta_minutes 1) test_alert_sent
    = (Ok tt, test_alert_sent).
Proof.
  split; [reflexivity|].
  apply (acknowledge_inactive_is_noop "UNKNOWN" "operator" (timedelta_minutes 1)
           test_alert_sent).
  reflexivity.
Defined.

Lemma deliver_alert_isolates_failures_witness :
  heap faulty_senders !! 0 = Some test_alert ∧
  (∀ r, r ∈ recipients faulty_senders →
        ∃ b, should_receive_alert r (severity test_alert) (timedelta_minutes 600) = Ok b) ∧
  _deliver_alert 0 (timedelta_minutes 600) faulty_senders =
    (Ok tt,
     emits (flat_map
              (λ r, if eligible r (severity test_alert) (timedelta_minutes 600)
                    then flat_map (attempt (channel_handlers faulty_senders) 0 test_alert r)
                           (channels r)
                    else [])
              (recipients faulty_senders))
       faulty_senders).
Proof.
  assert (∀ r, r ∈ recipients faulty_senders →
            ∃ b, should_receive_alert r (severity test_alert) (timedelta_minutes 600) = Ok b)
    as Hchecks.
  { intros r Hr. apply should_receive_alert_returns. intros hours Hhours. right.
    apply list_elem_of_In in Hr. destruct Hr as [<-|[<-|[<-|[]]]];
      try discriminate Hhours; injection Hhours as <-; split; by eexists. }
  split; [reflexivity|]. split; [exact Hchecks|].
  destruct (deliver_alert_isolates_failures 0 test_alert (timedelta_minutes 600)
              faulty_senders eq_refl) as (_ & Hall & _).
  exact (Hall Hchecks).
Defined.


Lemma overnight_window_never_matches_witness :
  active_hours night_recipient = Some {[ "start" := "22:00"; "end" := "06:00" ]} ∧
  String.ltb "06:00" "22:00" = true ∧
  should_receive_alert night_recipient CRITICAL (timedelta_minutes (23 * 60)) = Ok false.
Proof.
  split; [reflexivity|]. split; [reflexivity|].
  apply (overnight_window_never_matches night_recipient
           {[ "start" := "22:00"; "end" := "06:00" ]} "22:00" "06:00");
    reflexivity.
Defined.

Lemma escalate_frame_witness :
  heap test_alert_sent !! 0 = Some test_alert ∧
  alert_history (_escalate_alert 0 test_alert_sent).2 = alert_history test_alert_sent ∧
  active_alerts (_escalate_alert 0 test_alert_sent).2 = active_alerts test_alert_sent ∧
  alert_queue (_escalate_alert 0 test_alert_sent).2 = alert_queue test_alert_sent ++ [0].
Proof.
  split; [reflexivity|].
  destruct (escalate_frame 0 test_alert test_alert_sent eq_refl)
    as (Hhist & Hact & _ & _ & _ & Hq).
  split; [exact Hhist|]. split; [exact Hact|].
  apply (Hq 0%Z eq_refl).
Defined.


(** * Further properties *)

(** ** Severity values *)

Lemma AlertSeverity_of_value_cases (v : Z) :
  (v = 1%Z ∧ AlertSeverity_of_value v = Ok LOW) ∨
  (v = 2%Z ∧ AlertSeverity_of_value v = Ok MEDIUM) ∨
  (v = 3%Z ∧ AlertSeverity_of_value v = Ok HIGH) ∨
  (v = 4%Z ∧ AlertSeverity_of_value v = Ok CRITICAL) ∨
  ((v < 1 ∨ 4 < v)%Z ∧ AlertSeverity_of_value v = Raise ValueError).
Proof.
  unfold AlertSeverity_of_value.
  destruct (Z.eqb_spec v 1) as [->|H1]; [by left|].
  destruct (Z.eqb_spec v 2) as [->|H2]; [by right; left|].
  destruct (Z.eqb_spec v 3) as [->|H3]; [by right; right; left|].
  destruct (Z.eqb_spec v 4) as [->|H4]; [by right; right; right; left|].
  right; right; right; right. split; [lia|done].
Qed.

(** [AlertSeverity(v)] is the inverse of [.value]: it gives back the member
    with value [v], and raises [ValueError] exactly for the integers outside
    1..4. *)
Theorem AlertSeverity_value_round_trip (sev : AlertSeverity) (v : Z) :
  AlertSeverity_of_value (severity_value sev) = Ok sev ∧
  (AlertSeverity_of_value v = Ok sev ↔ v = severity_value sev) ∧
  (AlertSeverity_of_value v = Raise ValueError ↔ (v < 1 ∨ 4 < v)%Z).
Proof.
  split; [by destruct sev|].
  destruct (AlertSeverity_of_value_cases v)
    as [[Hv ->]|[[Hv ->]|[[Hv ->]|[[Hv ->]|[Hv ->]]]]];
    (split; [destruct sev; cbn; split; intros H; try done; try discriminate H; lia|]);
    split; intros H; try done; try discriminate H; lia.
Qed.

(** ** Eligibility: errors, monotonicity, and the meaning of the window *)

(** [should_receive_alert] raises only a [KeyError], and only past the
    threshold test with a non-empty [active_hours] dict: for the key
    ['start'] when it is missing, and for the key ['end'] when it is missing
    and the time of day is not before the start.  Below the threshold, and
    with a window that has both keys, it always returns. *)
Theorem should_receive_alert_raises (r : AlertRecipient) (sev : AlertSeverity)
    (now : datetime) (e : exn) :
  should_receive_alert r sev now = Raise e ↔
  (severity_value (severity_threshold r) ≤ severity_value sev)%Z ∧
  ∃ hours, active_hours r = Some hours ∧ hours ≠ ∅ ∧
    ((hours !! "start" = None ∧ e = KeyError "start") ∨
     (∃ start, hours !! "start" = Some start ∧
               String.leb start (strftime_HM now) = true ∧
               hours !! "end" = None ∧ e = KeyError "end")).
Proof.
  unfold should_receive_alert.
  destruct (Z.ltb_spec (severity_value sev) (severity_value (severity_threshold r)))
    as [Hlt|Hge].
  { split; [discriminate | intros [? _]; lia]. }
  destruct (active_hours r) as [hours|].
  2:{ split; [discriminate | by intros [_ (? & ? & _)]]. }
  destruct (dict_truthy hours) eqn:Ht.
  2:{ apply dict_truthy_false in Ht.
      split; [discriminate | intros [_ (? & [= <-] & ? & _)]; done]. }
  apply dict_truthy_true in Ht. unfold getitem. cbn.
  destruct (hours !! "start") as [start|] eqn:Hs; cbn.
  2:{ split.
      - intros [= <-]. split; [done|]. exists hours. split_and!; [done|done|]. by left.
      - intros [_ (? & [= <-] & _ & [[_ ->]|(? & ? & _)])]; [done|congruence]. }
  destruct (String.leb start (strftime_HM now)) eqn:H1; cbn.
  2:{ split; [discriminate|].
      intros [_ (? & [= <-] & _ & [[? _]|(? & ? & ? & _)])]; congruence. }
  destruct (hours !! "end") as [end_|] eqn:He; cbn.
  - split; [by destruct (String.leb _ end_)|].
    intros [_ (? & [= <-] & _ & [[? _]|(? & ? & ? & ? & _)])]; congruence.
  - split.
    + intros [= <-]. split; [done|]. exists hours. split_and!; [done|done|].
      right. by exists start.
    + intros [_ (? & [= <-] & _ & [[? _]|(? & ? & ? & ? & ->)])]; [congruence|done].
Qed.

(** A recipient that receives an alert of some severity at some time also
    receives, at that time, an alert of any higher severity: escalating an
    alert never loses a recipient. *)
Theorem eligibility_is_monotone (r : AlertRecipient) (sev sev' : AlertSeverity)
    (now : datetime) :
  should_receive_alert r sev now = Ok true →
  ((severity_value sev ≤ severity_value sev')%Z →
   should_receive_alert r sev' now = Ok true) ∧
  should_receive_alert r (bump sev) now = Ok true.
Proof.
  intros [Hge Hwin]%should_receive_alert_true.
  split; [intros Hle|]; apply should_receive_alert_true; (split; [|done]).
  - lia.
  - destruct sev; cbn in *; lia.
Qed.

Lemma digit_compare (a b : Z) :
  (0 ≤ a < 10)%Z → (0 ≤ b < 10)%Z → Ascii.compare (digit a) (digit b) = (a ?= b)%Z.
Proof.
  intros Ha Hb.
  assert (a = 0 ∨ a = 1 ∨ a = 2 ∨ a = 3 ∨ a = 4 ∨ a = 5 ∨ a = 6 ∨ a = 7 ∨ a = 8 ∨ a = 9)%Z
    as Hacases by lia.
  assert (b = 0 ∨ b = 1 ∨ b = 2 ∨ b = 3 ∨ b = 4 ∨ b = 5 ∨ b = 6 ∨ b = 7 ∨ b = 8 ∨ b = 9)%Z
    as Hbcases by lia.
  destruct Hacases as [->|[->|[->|[->|[->|[->|[->|[->|[->| ->]]]]]]]]];
    destruct Hbcases as [->|[->|[->|[->|[->|[->|[->|[->|[->| ->]]]]]]]]];
    reflexivity.
Qed.

(** On zero-padded times the order of strings is the order of times. *)
Lemma hhmm_leb (h1 m1 h2 m2 : Z) :
  (0 ≤ h1 < 24)%Z → (0 ≤ m1 < 60)%Z → (0 ≤ h2 < 24)%Z → (0 ≤ m2 < 60)%Z →
  String.leb (hhmm h1 m1) (hhmm h2 m2) = (60 * h1 + m1 <=? 60 * h2 + m2)%Z.
Proof.
  intros Hh1 Hm1 Hh2 Hm2.
  unfold String.leb, hhmm, two_digits.
  cbv beta iota delta [String.append]. cbn [String.compare].
  pose proof (Z.div_mod h1 10 ltac:(lia)) as E1.
  pose proof (Z.div_mod h2 10 ltac:(lia)) as E2.
  pose proof (Z.div_mod m1 10 ltac:(lia)) as E3.
  pose proof (Z.div_mod m2 10 ltac:(lia)) as E4.
  pose proof (Z.mod_pos_bound h1 10 ltac:(lia)).
  pose proof (Z.mod_pos_bound h2 10 ltac:(lia)).
  pose proof (Z.mod_pos_bound m1 10 ltac:(lia)).
  pose proof (Z.mod_pos_bound m2 10 ltac:(lia)).
  assert (0 ≤ h1 / 10 < 10)%Z by (split; [apply Z.div_pos|apply Z.div_lt_upper_bound]; lia).
  assert (0 ≤ h2 / 10 < 10)%Z by (split; [apply Z.div_pos|apply Z.div_lt_upper_bound]; lia).
  assert (0 ≤ m1 / 10 < 10)%Z by (split; [apply Z.div_pos|apply Z.div_lt_upper_bound]; lia).
  assert (0 ≤ m2 / 10 < 10)%Z by (split; [apply Z.div_pos|apply Z.div_lt_upper_bound]; lia).
  rewrite !digit_compare by done.
  destruct (Z.leb_spec (60 * h1 + m1) (60 * h2 + m2));
    destruct (Z.compare_spec (h1 / 10) (h2 / 10)); try lia;
    destruct (Z.compare_spec (h1 `mod` 10) (h2 `mod` 10)); try lia;
    destruct (Z.compare_spec (m1 / 10) (m2 / 10)); try lia;
    destruct (Z.compare_spec (m1 `mod` 10) (m2 `mod` 10)); try lia; done.
Qed.

Lemma strftime_HM_hhmm (t : datetime) : strftime_HM t = hhmm (hour_of t) (minute_of t).
Proof. reflexivity. Qed.

Lemma hour_minute_bounds (t : datetime) :
  (0 ≤ hour_of t < 24)%Z ∧ (0 ≤ minute_of t < 60)%Z.
Proof. unfold hour_of, minute_of. split; apply Z.mod_pos_bound; lia. Qed.

(** For a window whose ends are zero-padded 'HH:MM' texts of times of the
    day, the comparison of strings decides what it is meant to decide: the
    recipient receives the alert exactly when the severity reaches the
    threshold and the minute of the day lies between the two ends, both
    included; a window whose start is later than its end admits no time. *)
Theorem window_check_is_numeric (r : AlertRecipient) (sev : AlertSeverity) (now : datetime)
    (hours : gmap string string) (sh sm eh em : Z) :
  active_hours r = Some hours →
  hours !! "start" = Some (hhmm sh sm) →
  hours !! "end" = Some (hhmm eh em) →
  (0 ≤ sh < 24)%Z → (0 ≤ sm < 60)%Z → (0 ≤ eh < 24)%Z → (0 ≤ em < 60)%Z →
  should_receive_alert r sev now =
    Ok ((severity_value (severity_threshold r) <=? severity_value sev)%Z &&
        (60 * sh + sm <=? minute_of_day now)%Z &&
        (minute_of_day now <=? 60 * eh + em)%Z).
Proof.
  intros Hr Hs He Hsh Hsm Heh Hem.
  destruct (hour_minute_bounds now) as [Hh Hm].
  unfold should_receive_alert. rewrite Hr, (dict_truthy_lookup _ _ _ Hs).
  unfold getitem. rewrite Hs, He. cbn.
  rewrite strftime_HM_hhmm, !hhmm_leb by done. fold (minute_of_day now).
  rewrite Z.ltb_antisym.
  destruct (_ <=? severity_value sev)%Z; cbn; [|done].
  destruct (60 * sh + sm <=? minute_of_day now)%Z; cbn; [|done].
  by destruct (minute_of_day now <=? 60 * eh + em)%Z.
Qed.

(** ** Delivery order, the worker, and the senders of a new manager *)

Lemma delivery_app (handlers : AlertChannel → option Handler) (now : datetime) (l : loc)
    (a : Alert) (rs1 rs2 : list AlertRecipient) :
  delivery handlers now l a (rs1 ++ rs2) =
    match delivery handlers now l a rs1 with
    | (evs1, Ok _) =>
        ((evs1 ++ (delivery handlers now l a rs2).1), (delivery handlers now l a rs2).2)
    | (evs1, Raise e) => (evs1, Raise e)
    end.
Proof.
  induction rs1 as [|r rs1 IH]; cbn.
  - by destruct (delivery handlers now l a rs2).
  - destruct (should_receive_alert r (severity a) now) as [[]|e]; [|done|done].
    rewrite IH. destruct (delivery handlers now l a rs1) as [evs1 [[]|e]]; cbn; [|done].
    by rewrite app_assoc.
Qed.

(** Recipients are served in the order in which they were added: after
    [add_recipient(r)] a delivery that used to return leaves the events it
    left before, followed by the attempts for [r] when [r] is eligible, so a
    recipient added later changes nothing of what the earlier ones get. *)
Theorem add_recipient_extends_delivery (l : loc) (a : Alert) (now : datetime)
    (r : AlertRecipient) (s : State) :
  heap s !! l = Some a →
  (_deliver_alert l now s).1 = Ok tt →
  let s1 := (add_recipient r s).2 in
  ∃ evs,
    _deliver_alert l now s = (Ok tt, emits evs s) ∧
    _deliver_alert l now s1 =
      (match should_receive_alert r (severity a) now with
       | Ok _ => Ok tt
       | Raise e => Raise e
       end,
       emits (evs ++ (if eligible r (severity a) now
                      then flat_map (attempt (channel_handlers s) l a r) (channels r)
                      else [])) s1).
Proof.
  intros Hl Hok s1. subst s1.
  change (add_recipient r s).2
    with (emits [LogAddedRecipient (name r)] (with_recipients (λ rs, rs ++ [r]) s)).
  rewrite (_deliver_alert_run l a now s Hl) in Hok |- *.
  rewrite (_deliver_alert_run l a now
             (emits [LogAddedRecipient (name r)] (with_recipients (λ rs, rs ++ [r]) s)) Hl).
  cbn in *. rewrite delivery_app.
  destruct (delivery (channel_handlers s) now l a (recipients s)) as [evs res].
  cbn in Hok. subst res. exists evs. split; [done|]. cbn. unfold eligible.
  destruct (should_receive_alert r (severity a) now) as [[]|e]; cbn;
    by rewrite ?app_nil_r.
Qed.

Lemma delivery_event_kinds (handlers : AlertChannel → option Handler) (now : datetime)
    (l : loc) (a : Alert) (rs : list AlertRecipient) (ev : event) :
  ev ∈ (delivery handlers now l a rs).1 →
  ∃ r ch, r ∈ rs ∧ ch ∈ channels r ∧ ev ∈ attempt handlers l a r ch.
Proof.
  induction rs as [|r0 rs IH]; cbn.
  - by intros ?%elem_of_nil.
  - destruct (should_receive_alert r0 (severity a) now) as [[]|e]; cbn.
    + destruct (delivery handlers now l a rs) as [evs res]. cbn in *.
      intros [Hin|Hin]%elem_of_app.
      * apply list_elem_of_In, in_flat_map in Hin as (ch & Hch & Hin).
        exists r0, ch. split_and!; [by left|by apply list_elem_of_In|by apply list_elem_of_In].
      * destruct (IH Hin) as (r & ch & ? & ? & ?). exists r, ch. split; [by right|done].
    + intros Hin. destruct (IH Hin) as (r & ch & ? & ? & ?). exists r, ch.
      split; [by right|done].
    + by intros ?%elem_of_nil.
Qed.

(** One iteration of the worker never raises.  On a non-empty queue it takes
    the alert at the front and changes nothing else of the manager.  It
    starts an escalation timer, for the id of that alert and with the
    configured timeout, exactly when escalation is enabled and the delivery
    returned; a delivery that raised is logged instead, and then no timer is
    started. *)
Theorem process_alerts_iteration (now : datetime) (l : loc) (rest : list loc) (a : Alert)
    (s : State) :
  alert_queue s = l :: rest →
  heap s !! l = Some a →
  let s0 := with_alert_queue (λ _, rest) s in
  ∃ evs,
    _process_alerts now s = (Ok tt, emits evs s0) ∧
    (∀ delay id, TimerStarted delay id ∈ evs ↔
       delay = timeout (escalation_config s) ∧ id = alert_id a ∧
       enabled (escalation_config s) = true ∧ (_deliver_alert l now s0).1 = Ok tt) ∧
    (∀ e, LogProcessingError e ∈ evs ↔ (_deliver_alert l now s0).1 = Raise e).
Proof.
  intros Hq Hl s0. subst s0.
  unfold _process_alerts. munfold. cbn. rewrite Hq. cbn.
  rewrite (_deliver_alert_run l a now (with_alert_queue (λ _, rest) s) Hl). cbn.
  pose proof (delivery_event_kinds (channel_handlers s) now l a (recipients s)) as Hkinds.
  assert (∀ ev, ev ∈ (delivery (channel_handlers s) now l a (recipients s)).1 →
                (∀ d i, ev ≠ TimerStarted d i) ∧ (∀ e, ev ≠ LogProcessingError e)) as Hnot.
  { intros ev (r & ch & _ & _ & Hin)%Hkinds. unfold attempt in Hin.
    destruct (channel_handlers s ch) as [h|].
    - apply elem_of_cons in Hin as [->|Hin]; [done|].
      destruct (h a r); [by apply elem_of_nil in Hin|].
      by apply list_elem_of_singleton in Hin as ->.
    - by apply list_elem_of_singleton in Hin as ->. }
  destruct (delivery (channel_handlers s) now l a (recipients s)) as [evs [[]|e]]; cbn in *.
  - destruct (enabled (escalation_config s)) eqn:Hen; cbn.
    + unfold deref. cbn. rewrite Hl. cbn.
      exists (evs ++ [TimerStarted (timeout (escalation_config s)) (alert_id a)]).
      split; [by rewrite <- emits_app|]. split.
      * intros delay id. rewrite elem_of_app, list_elem_of_singleton. split.
        -- intros [Hin|[= -> ->]]; [by destruct (proj1 (Hnot _ Hin) delay id)|done].
        -- intros (-> & -> & _). by right.
      * intros e. rewrite elem_of_app, list_elem_of_singleton. split; [|done].
        intros [Hin|?]; [by destruct (proj2 (Hnot _ Hin) e)|done].
    + exists evs. split; [done|]. split.
      * intros delay id. split; [|by intros (_ & _ & ? & _)].
        intros Hin. by destruct (proj1 (Hnot _ Hin) delay id).
      * intros e. split; [|done]. intros Hin. by destruct (proj2 (Hnot _ Hin) e).
  - exists (evs ++ [LogProcessingError e]).
    split; [by rewrite <- emits_app|]. split.
    + intros delay id. rewrite elem_of_app, list_elem_of_singleton. split; [|by intros (_&_&_&?)].
      intros [Hin|?]; [by destruct (proj1 (Hnot _ Hin) delay id)|done].
    + intros e'. rewrite elem_of_app, list_elem_of_singleton. split.
      * intros [Hin|[= ->]]; [by destruct (proj2 (Hnot _ Hin) e')|done].
      * intros [= ->]. by right.
Qed.

Lemma step_settings (s : State) (o : op) :
  wf s →
  channel_handlers (step s o) = channel_handlers s ∧
  escalation_config (step s o) = escalation_config s.
Proof.
  intros Hwf. unfold step. destruct o as [a|r|l|id by_ now|now|id now]; cbn.
  - done.
  - done.
  - destruct (heap s !! l) as [a|] eqn:Hl.
    + by rewrite (send_alert_run l a s Hl).
    + by rewrite (send_alert_dangling l s Hl).
  - destruct (active_alerts s !! id) as [l|] eqn:Hid.
    2:{ by rewrite (acknowledge_alert_inactive id by_ now s Hid). }
    destruct (wf_active s Hwf id l Hid) as [(a & Hl & _) _].
    by rewrite (acknowledge_alert_run id by_ now l a s Hid Hl).
  - destruct (alert_queue s) as [|l rest] eqn:Hq.
    { by rewrite (_process_alerts_empty now s Hq). }
    assert (l < length (heap s)) as [a Hl]%lookup_lt_is_Some.
    { apply (wf_queue s Hwf). rewrite Hq. by left. }
    by destruct (_process_alerts_run now l rest a s Hq Hl) as [evs ->].
  - destruct (active_alerts s !! id) as [l|] eqn:Hid.
    2:{ by rewrite (_check_escalation_inactive id now s Hid). }
    destruct (wf_active s Hwf id l Hid) as [(a & Hl & _) _].
    destruct (Z.lt_ge_cases (now - timestamp a) (timeout (escalation_config s)))
      as [Hearly|Hdue].
    { by rewrite (_check_escalation_early id now l a s Hid Hl Hearly). }
    rewrite (_check_escalation_due id now l a s Hid Hl Hdue).
    destruct (py_num (escalation_count a)) as [n|] eqn:Hn.
    + by rewrite (_escalate_alert_run l a n (emits [LogEscalating id] s) Hl Hn).
    + by rewrite (_escalate_alert_raises l a (emits [LogEscalating id] s) Hl Hn).
Qed.

Lemma run_settings (ops : list op) (s : State) :
  wf s →
  channel_handlers (run ops s) = channel_handlers s ∧
  escalation_config (run ops s) = escalation_config s.
Proof.
  revert s. induction ops as [|o ops IH]; intros s Hwf; [done|].
  change (run (o :: ops) s) with (run ops (step s o)).
  destruct (IH (step s o) (step_wf s o Hwf)) as [-> ->]. by apply step_settings.
Qed.

(** No method of the manager changes its senders or its escalation settings,
    and a new manager has a sender for every channel, none of which raises:
    whatever has been done with a manager since it was built, a delivery logs
    neither a missing handler nor a failed send, all it leaves being the calls
    of senders for recipients of the directory on their own channels; and the
    escalation timeout is still five minutes. *)
Theorem new_manager_delivers_without_failures (ops : list op) (l : loc) (a : Alert)
    (now : datetime) :
  let s := run ops AlertManager_init in
  heap s !! l = Some a →
  timeout (escalation_config s) = timedelta_minutes 5 ∧
  enabled (escalation_config s) = true ∧
  ∃ evs, (_deliver_alert l now s).2 = emits evs s ∧
    ∀ ev, ev ∈ evs → ∃ ch r, ev = Invoked ch l r ∧ r ∈ recipients s ∧ ch ∈ channels r.
Proof.
  intros s Hl. destruct (run_settings ops AlertManager_init wf_init) as [Hh Hc].
  fold s in Hh, Hc. rewrite Hc. split; [done|]. split; [done|].
  rewrite (_deliver_alert_run l a now s Hl). cbn. eexists. split; [done|].
  intros ev (r & ch & Hr & Hch & Hin)%delivery_event_kinds.
  exists ch, r. rewrite Hh in Hin. unfold attempt in Hin. cbn in Hin.
  destruct ch; cbn in Hin; by apply list_elem_of_singleton in Hin as ->.
Qed.

(** ** Repeated escalation *)

(** [n] callbacks of the timer in a row, each at least the timeout after the
    timestamp of an active alert, escalate it [n] times: the count in the
    metadata goes up by [n], the severity by [n] levels up to [CRITICAL], and
    the alert is put [n] times on the queue.  Nothing stops this at
    [max_escalations]. *)
Theorem repeated_escalation_is_unbounded (id : string) (l : loc) (nows : list datetime)
    (a : Alert) (n : Z) (s : State) :
  active_alerts s !! id = Some l →
  heap s !! l = Some a →
  py_num (escalation_count a) = Some n →
  (∀ now, now ∈ nows → (timeout (escalation_config s) ≤ now - timestamp a)%Z) →
  let s' := run (TimerFires id <$> nows) s in
  ∃ a', heap s' !! l = Some a' ∧
    py_num (escalation_count a') = Some (n + Z.of_nat (length nows))%Z ∧
    severity_value (severity a') =
      Z.min 4 (severity_value (severity a) + Z.of_nat (length nows)) ∧
    alert_queue s' = alert_queue s ++ replicate (length nows) l ∧
    active_alerts s' !! id = Some l.
Proof.
  revert a n s. induction nows as [|now nows IH]; intros a n s Hid Hl Hn Hdue s'.
  - exists a. subst s'. cbn. rewrite Z.add_0_r, app_nil_r. split_and!; try done.
    destruct (severity a); cbn; lia.
  - assert (timeout (escalation_config s) ≤ now - timestamp a)%Z as Hnow
      by (apply Hdue; by left).
    set (s1 := emits [LogEscalated (alert_id a) (PInt (n + 1))]
                 (with_alert_queue (λ q, q ++ [l])
                    (with_heap (<[l := escalated n a]>) (emits [LogEscalating id] s)))).
    assert (step s (TimerFires id now) = s1) as Hstep.
    { unfold step. cbn [exec].
      rewrite (_check_escalation_due id now l a s Hid Hl Hnow).
      by rewrite (_escalate_alert_run l a n (emits [LogEscalating id] s) Hl Hn). }
    assert (s' = run (TimerFires id <$> nows) s1) as -> by (subst s'; by rewrite <- Hstep).
    destruct (IH (escalated n a) (n + 1)%Z s1) as (a' & Hl' & Hn' & Hsev' & Hq' & Hid').
    + done.
    + subst s1. cbn. by rewrite list_lookup_insert_eq by eauto using lookup_lt_Some.
    + unfold escalation_count, escalated. cbn. by rewrite lookup_insert_eq.
    + intros now' Hin. apply Hdue. by right.
    + exists a'. split_and!; [done| | | |done].
      * rewrite Hn'. f_equal. cbn [length]. lia.
      * rewrite Hsev'. cbn [length].
        change (severity (escalated n a)) with (bump (severity a)).
        destruct (severity a); cbn [bump severity_value]; lia.
      * rewrite Hq'. subst s1. cbn. by rewrite <- app_assoc.
Qed.

(** ** After an acknowledgement *)

(** Once an id has been acknowledged it is inert: a second acknowledgement
    changes nothing, so the first actor and time stay on record, and the
    escalation timer of the alert, whenever it fires, does nothing. *)
Theorem acknowledged_id_is_inert (ops : list op) (id by_ by' : string)
    (now now' : datetime) :
  let s1 := (acknowledge_alert id by_ now (run ops AlertManager_init)).2 in
  acknowledge_alert id by' now' s1 = (Ok tt, s1) ∧
  _check_escalation id now' s1 = (Ok tt, s1).
Proof.
  intros s1.
  assert (active_alerts s1 !! id = None) as Hnone.
  { subst s1. set (s := run ops AlertManager_init).
    assert (wf s) as Hwf by apply run_wf, wf_init.
    destruct (active_alerts s !! id) as [l|] eqn:Hid.
    - destruct (wf_active s Hwf id l Hid) as [(a & Hl & _) _].
      rewrite (acknowledge_alert_run id by_ now l a s Hid Hl). cbn.
      apply lookup_delete_eq.
    - by rewrite (acknowledge_alert_inactive id by_ now s Hid). }
  split.
  - by apply acknowledge_alert_inactive.
  - by apply _check_escalation_inactive.
Qed.

(** ** An id submitted twice *)

(** [send_alert] of a second alert under an id that is still active replaces
    the entry: the active set keeps its size and now files the new alert
    under the id, the first alert is under no key any more although it stays
    in the history, and an acknowledgement of the id marks the new alert and
    leaves the first one as it was. *)
Theorem resubmitted_id_replaces_active_alert (ops : list op) (l0 l : loc) (a : Alert)
    (by_ : string) (now : datetime) :
  let s := run ops AlertManager_init in
  active_alerts s !! alert_id a = Some l0 →
  heap s !! l = Some a →
  l ≠ l0 →
  let s1 := (send_alert l s).2 in
  let s2 := (acknowledge_alert (alert_id a) by_ now s1).2 in
  active_alerts s1 !! alert_id a = Some l ∧
  size (active_alerts s1) = size (active_alerts s) ∧
  (∀ k, active_alerts s1 !! k ≠ Some l0) ∧
  l0 ∈ alert_history s1 ∧
  heap s2 !! l0 = heap s !! l0 ∧
  (∃ a', heap s2 !! l = Some a' ∧ acknowledged a' = true) ∧
  (∀ k, active_alerts s2 !! k ≠ Some l0).
Proof.
  intros s Hid Hl Hne s1 s2.
  assert (wf s) as Hwf by apply run_wf, wf_init.
  destruct (wf_active s Hwf _ l0 Hid) as [(a0 & Hl0 & Haid0) Hin0].
  assert (∀ k, <[alert_id a := l]> (active_alerts s) !! k ≠ Some l0) as Hgone.
  { intros k [[_ ?]|[Hk Hact]]%lookup_insert_Some; [done|].
    destruct (wf_active s Hwf k l0 Hact) as [(a1 & Hl1 & Haid1) _]. congruence. }
  assert (s1 = with_alert_history (λ h, h ++ [l])
                 (with_alert_queue (λ q, q ++ [l])
                    (with_active_alerts (<[alert_id a := l]>)
                       (emits [LogSending (title a) (severity a)] s)))) as Hs1.
  { subst s1. by rewrite (send_alert_run l a s Hl). }
  assert (active_alerts s1 !! alert_id a = Some l) as Hid1.
  { rewrite Hs1. cbn. apply lookup_insert_eq. }
  assert (heap s1 !! l = Some a) as Hl1 by by rewrite Hs1.
  assert (s2 = with_active_alerts (delete (alert_id a))
                 (emits [LogAcknowledged (alert_id a) by_]
                    (with_heap (<[l := acked by_ now a]>) s1))) as Hs2.
  { subst s2. by rewrite (acknowledge_alert_run _ by_ now l a s1 Hid1 Hl1). }
  split_and!.
  - done.
  - rewrite Hs1. cbn. by apply map_size_insert_Some.
  - rewrite Hs1. cbn. done.
  - rewrite Hs1. cbn. apply elem_of_app. by left.
  - rewrite Hs2, Hs1. cbn. by rewrite list_lookup_insert_ne.
  - exists (acked by_ now a). rewrite Hs2. cbn.
    by rewrite list_lookup_insert_eq by (rewrite Hs1; cbn; eauto using lookup_lt_Some).
  - rewrite Hs2, Hs1. cbn. intros k [_ Hk]%lookup_delete_Some. by apply (Hgone k).
Qed.

(** ** The counts of the statistics *)

Lemma history_objects_length (s : State) :
  wf s → length (history_objects s) = length (alert_history s).
Proof.
  intros Hwf. unfold history_objects.
  pose proof (wf_history s Hwf) as Hh.
  induction (alert_history s) as [|l h IH]; [done|]. cbn.
  destruct (lookup_lt_is_Some_2 (heap s) l) as [a ->]; [apply Hh; by left|].
  cbn. f_equal. apply IH. intros l' Hl'. apply Hh. by right.
Qed.

Lemma by_severity_partition (alerts : list Alert) :
  sum_list ((λ sev, length (filter (λ a, severity a = sev) alerts)) <$> AlertSeverity_members)
  = length alerts.
Proof.
  induction alerts as [|a alerts IH]; [done|].
  unfold AlertSeverity_members in *. rewrite !fmap_cons in *. rewrite !filter_cons.
  cbn [sum_list fmap list_fmap length] in *.
  destruct (severity a); repeat case_decide; try done; cbn [length]; unfold id in *; lia.
Qed.

(** In every state of a manager the statistics are consistent with each
    other: [by_severity] has one entry for each of the four severities, in
    the order of the enum, its counts add up to [total_alerts], and
    [acknowledged_alerts] does not exceed [total_alerts]. *)
Theorem severity_counts_add_up (ops : list op) :
  ∃ st, get_alert_statistics (run ops AlertManager_init) = Ok st ∧
    (Stats.by_severity st).*1 = [LOW; MEDIUM; HIGH; CRITICAL] ∧
    sum_list (Stats.by_severity st).*2 = Stats.total_alerts st ∧
    Stats.acknowledged_alerts st ≤ Stats.total_alerts st.
Proof.
  set (s := run ops AlertManager_init).
  assert (wf s) as Hwf by apply run_wf, wf_init.
  unfold get_alert_statistics.
  destruct (_calculate_avg_ack_time_mean s) as (q & -> & _). cbn.
  eexists. split; [done|]. cbn. split; [done|].
  rewrite <- (history_objects_length s Hwf). split.
  - pose proof (by_severity_partition (history_objects s)) as Hsum. cbn in Hsum. lia.
  - apply length_filter.
Qed.
